(** * Backtesting core: broker, mean-reversion strategy, performance metrics
      and the frontend drawdown derivation.

    The Python sources compute on [float] and the TypeScript client on
    [number].  Two models are kept side by side.

    - The exact model idealises a finite float as a rational ([Q]); rounding
      is not modelled.  Non-finite results that the code produces on purpose
      or by library convention (NaN of an empty or one-element pandas
      statistic, [float("inf")]) are modelled by [fval].  It carries the
      properties that do not depend on rounding.
    - The binary64 model ([Broker64], [Strategy64]) computes on IEEE 754
      double precision floats, as the interpreter does.  It carries the
      properties whose discrete outcome (an integer quantity, a rejection
      reason, an order emitted or not) can change with rounding.

    Python exceptions are modelled by [result]. *)

From stdpp Require Import base gmap strings list.
From Stdlib Require Import ZArith QArith Qround Qminmax Qabs Lqa Lia List Floats.
Import ListNotations.

Local Open Scope Q_scope.

(** ** Python-level conventions *)

Inductive exn : Type :=
| ZeroDivisionError
| IndexError
| ValueError
| OverflowError.

Inductive result (A : Type) : Type :=
| Ok (a : A)
| Raise (e : exn).
Arguments Ok {A} a.
Arguments Raise {A} e.

Definition bind {A B : Type} (r : result A) (k : A -> result B) : result B :=
  match r with
  | Ok a => k a
  | Raise e => Raise e
  end.

(** Strict comparison on rationals, as a boolean. *)
Definition Qlt_bool (a b : Q) : bool := negb (Qle_bool b a).

(** Python's [max(a, b)] keeps the first argument unless the second is
    strictly greater; [min(a, b)] keeps the first unless the second is
    strictly smaller. *)
Definition py_max (a b : Q) : Q := if Qlt_bool a b then b else a.
Definition py_min (a b : Q) : Q := if Qlt_bool b a then b else a.

(** ** Market configuration (backend/app/config.py) *)

Record MarketConfig : Type := mkMarketConfig {
  commission_rate : Q;
  min_commission : Q;
  slippage_daily : Q;
  slippage_hourly : Q;
  min_order_amount : Q;
  currency : string;
  trading_days_per_year : Z
}.

Definition KR : MarketConfig :=
  {| commission_rate := 15 # 100000;
     min_commission := 0;
     slippage_daily := 1 # 1000;
     slippage_hourly := 5 # 10000;
     min_order_amount := 100000;
     currency := "KRW";
     trading_days_per_year := 245 |}.

Definition US : MarketConfig :=
  {| commission_rate := 25 # 10000;
     min_commission := 1;
     slippage_daily := 1 # 1000;
     slippage_hourly := 5 # 10000;
     min_order_amount := 100;
     currency := "USD";
     trading_days_per_year := 252 |}.

(** ** Enumerations (backend/app/db/models.py) *)

Inductive TimeframeType : Type := H1 | D1.

Inductive OrderSide : Type := BUY | SELL.

(** ** Broker (backend/app/engine/broker.py) *)

Module Broker.

Inductive RejectReason : Type :=
| INSUFFICIENT_CASH
| CASH_RESERVE_VIOLATION
| BELOW_MIN_ORDER.

Record t : Type := mk {
  config : MarketConfig;
  timeframe : TimeframeType
}.

Definition MAX_POSITION_WEIGHT : Q := 40 # 100.
Definition MIN_CASH_RESERVE_RATIO : Q := 5 # 100.

Definition get_slippage (self : t) : Q :=
  match timeframe self with
  | D1 => slippage_daily (config self)
  | H1 => slippage_hourly (config self)
  end.

Definition calculate_fill_price (self : t) (next_open : Q) (side : OrderSide) : Q :=
  let slippage := get_slippage self in
  match side with
  | BUY => next_open * (1 + slippage)
  | SELL => next_open * (1 - slippage)
  end.

Definition calculate_commission (self : t) (fill_price : Q) (quantity : Z) : Q :=
  let raw := fill_price * inject_Z quantity * commission_rate (config self) in
  py_max raw (min_commission (config self)).

(** The clamped target notional of [calculate_quantity]. *)
Definition clamped_target (portfolio_equity weight current_position_value : Q) : Q :=
  let target_value := portfolio_equity * weight in
  let max_value := portfolio_equity * MAX_POSITION_WEIGHT in
  let allowed_value := max_value - current_position_value in
  py_min target_value allowed_value.

(** Exact reading of [calculate_quantity]: float division by a zero
    [fill_price] raises in Python.  The integer the interpreter returns,
    with the rounding of the quotient and the errors of [math.floor], is
    [Broker64.calculate_quantity]. *)
Definition calculate_quantity (self : t)
    (portfolio_equity weight fill_price current_position_value : Q) : result Z :=
  let target_value := clamped_target portfolio_equity weight current_position_value in
  if Qlt_bool target_value (min_order_amount (config self)) then Ok 0%Z
  else if Qeq_bool fill_price 0 then Raise ZeroDivisionError
  else
    let quantity := Qfloor (target_value / fill_price) in
    Ok (Z.max quantity 0).

End Broker.

(** ** Non-finite float values

    [Fin q] is a finite float, idealised as the rational [q]; the other
    constructors are the IEEE special values.  Signed zeros are not
    distinguished. *)

Inductive fval : Type :=
| Fin (q : Q)
| PInf
| NInf
| NaN.

Definition fneg (x : fval) : fval :=
  match x with
  | Fin q => Fin (- q)
  | PInf => NInf
  | NInf => PInf
  | NaN => NaN
  end.

Definition fadd (x y : fval) : fval :=
  match x, y with
  | NaN, _ | _, NaN => NaN
  | Fin a, Fin b => Fin (a + b)
  | PInf, NInf | NInf, PInf => NaN
  | PInf, _ | _, PInf => PInf
  | NInf, _ | _, NInf => NInf
  end.

Definition fsub (x y : fval) : fval := fadd x (fneg y).

(** The infinity with the sign of [a], NaN for zero. *)
Definition signed_inf (a : Q) : fval :=
  if Qeq_bool a 0 then NaN else if Qlt_bool 0 a then PInf else NInf.

Definition fmul (x y : fval) : fval :=
  match x, y with
  | NaN, _ | _, NaN => NaN
  | Fin a, Fin b => Fin (a * b)
  | Fin a, PInf | PInf, Fin a => signed_inf a
  | Fin a, NInf | NInf, Fin a => signed_inf (- a)
  | PInf, PInf | NInf, NInf => PInf
  | PInf, NInf | NInf, PInf => NInf
  end.

(** numpy division: a zero divisor gives an infinity or NaN, never an
    exception. *)
Definition fdiv (x y : fval) : fval :=
  match x, y with
  | NaN, _ | _, NaN => NaN
  | Fin a, Fin b => if Qeq_bool b 0 then signed_inf a else Fin (a / b)
  | Fin _, PInf | Fin _, NInf => Fin 0
  | PInf, Fin b => if Qlt_bool b 0 then NInf else PInf
  | NInf, Fin b => if Qlt_bool b 0 then PInf else NInf
  | PInf, PInf | PInf, NInf | NInf, PInf | NInf, NInf => NaN
  end.

(** Comparisons; every comparison with NaN is false. *)
Definition flt (x y : fval) : bool :=
  match x, y with
  | NaN, _ | _, NaN => false
  | Fin a, Fin b => Qlt_bool a b
  | NInf, NInf | PInf, _ => false
  | NInf, _ => true
  | Fin _, PInf => true
  | Fin _, NInf => false
  end.

Definition feq (x y : fval) : bool :=
  match x, y with
  | Fin a, Fin b => Qeq_bool a b
  | PInf, PInf | NInf, NInf => true
  | _, _ => false
  end.

Definition is_nan (x : fval) : bool :=
  match x with NaN => true | _ => false end.

Definition fsum (l : list fval) : fval := fold_left fadd l (Fin 0).

Definition Qsum (l : list Q) : Q := fold_left Qplus l 0.

(** ** Python list slicing [l[start:]] *)

Definition py_slice_from {A : Type} (start : Z) (l : list A) : list A :=
  let n := Z.of_nat (length l) in
  let i := if (start <? 0)%Z then Z.max (n + start) 0 else Z.min start n in
  skipn (Z.to_nat i) l.

(** ** Positions and portfolio *)

(** Modelled from the spec: the Position data class of
    backend/app/engine/position.py (symbol, integer quantity, average price,
    market value).  It defines neither [__bool__] nor [__len__], so every
    instance is truthy. *)
Record Position : Type := mkPosition {
  pos_symbol : string;
  pos_quantity : Z;
  pos_avg_price : Q;
  pos_market_value : Q
}.

(** Modelled from the spec: the Portfolio of backend/app/engine/portfolio.py,
    of which the strategy reads only [get_position(symbol) -> Position | None],
    a lookup in the map from symbol to Position. *)
Record Portfolio : Type := mkPortfolio {
  cash : Q;
  positions : gmap string Position
}.

Definition get_position (portfolio : Portfolio) (symbol : string) : option Position :=
  positions portfolio !! symbol.

(** ** Strategy base class and mean reversion
       (backend/app/strategies/base.py, mean_reversion.py) *)

Module Strategy.

(** The text of [reason] is an f-string showing the z-score and the
    threshold it crossed; it is kept as the pair it interpolates. *)
Inductive ReasonText : Type :=
| ZScoreBelowEntry (z_score threshold : Q)
| ZScoreAboveExit (z_score threshold : Q).

Record PendingOrder : Type := mkPendingOrder {
  symbol : string;
  side : OrderSide;
  weight : Q;
  reason : option ReasonText
}.

(** One OHLCV bar (a pandas Series). *)
Record Bar : Type := mkBar {
  bar_open : Q;
  bar_high : Q;
  bar_low : Q;
  bar_close : Q;
  bar_volume : Q
}.

(** Per-symbol state dictionary. *)
Record SymbolState : Type := mkSymbolState {
  price_history : list Q;
  volume_history : list Q
}.

Definition _init_state : SymbolState :=
  {| price_history := []; volume_history := [] |}.

(** [self._state[symbol]], created on first access. *)
Definition _get_state (_state : gmap string SymbolState) (sym : string)
    : SymbolState * gmap string SymbolState :=
  match _state !! sym with
  | Some st => (st, _state)
  | None => (_init_state, <[sym := _init_state]> _state)
  end.

Record Parameters : Type := mkParameters {
  lookback_period : Z;
  entry_threshold : Q;
  exit_threshold : Q;
  position_weight : Q
}.

Definition defaults : Parameters :=
  {| lookback_period := 20;
     entry_threshold := 2;
     exit_threshold := 5 # 10;
     position_weight := 3 # 10 |}.

Section MeanReversion.

(** Square root on non-negative floats. *)
Variable sqrtQ : Q -> Q.

(** The exact mean of the window; NaN ([None]) on an empty array.  What
    [np.mean] and [np.std] return after rounding is a parameter of
    [Strategy64]. *)
Definition np_mean (prices : list Q) : option Q :=
  match prices with
  | [] => None
  | _ => Some (Qsum prices / inject_Z (Z.of_nat (length prices)))
  end.

(** The exact population standard deviation (ddof = 0). *)
Definition np_std (prices : list Q) : option Q :=
  match np_mean prices with
  | None => None
  | Some mean =>
      match np_mean (map (fun x => (x - mean) * (x - mean)) prices) with
      | None => None
      | Some var => Some (sqrtQ var)
      end
  end.

(** The window of closes the statistics are taken over:
    [state["price_history"][-lookback:]]. *)
Definition window (lookback : Z) (history : list Q) : list Q :=
  py_slice_from (- lookback)%Z history.

Definition buy_order (params : Parameters) (sym : string) (z_score : Q) : PendingOrder :=
  {| symbol := sym; side := BUY; weight := position_weight params;
     reason := Some (ZScoreBelowEntry z_score (entry_threshold params)) |}.

Definition sell_order (params : Parameters) (sym : string) (z_score : Q) : PendingOrder :=
  {| symbol := sym; side := SELL; weight := 1;
     reason := Some (ZScoreAboveExit z_score (exit_threshold params)) |}.

(** Body of the loop [for symbol, bar in bars.items()]; the accumulator is
    the order list and the strategy's [_state]. *)
Definition on_bar_symbol (params : Parameters) (portfolio : Portfolio)
    (acc : list PendingOrder * gmap string SymbolState)
    (item : string * Bar) : list PendingOrder * gmap string SymbolState :=
  let '(orders, _state) := acc in
  let '(sym, bar) := item in
  let '(state, _state) := _get_state _state sym in
  let close := bar_close bar in
  let state :=
    {| price_history := price_history state ++ [close];
       volume_history := volume_history state |} in
  let _state := <[sym := state]> _state in
  let lookback := lookback_period params in
  if (Z.of_nat (length (price_history state)) <? lookback)%Z then (orders, _state)
  else
    let prices := window lookback (price_history state) in
    match np_mean prices, np_std prices with
    | Some mean, Some std =>
        if Qeq_bool std 0 then (orders, _state)
        else
          let z_score := (close - mean) / std in
          let position := get_position portfolio sym in
          if Qlt_bool z_score (- entry_threshold params) && bool_decide (position = None)
          then (orders ++ [buy_order params sym z_score], _state)
          else if bool_decide (is_Some position)
                  && Qlt_bool (- exit_threshold params) z_score
          then (orders ++ [sell_order params sym z_score], _state)
          else (orders, _state)
    | _, _ =>
        (* empty window: mean and std are NaN, [std == 0] and both
           comparisons of the z-score are false *)
        (orders, _state)
    end.

(** [bars] is a dict: its items in insertion order, keys distinct. *)
Definition on_bar (params : Parameters) (_state : gmap string SymbolState)
    (bars : list (string * Bar)) (portfolio : Portfolio)
    : list PendingOrder * gmap string SymbolState :=
  fold_left (on_bar_symbol params portfolio) bars ([], _state).

(** The history of a symbol as [on_bar] sees it after appending the close. *)
Definition history_with (_state : gmap string SymbolState) (sym : string) (close : Q)
    : list Q :=
  price_history (fst (_get_state _state sym)) ++ [close].

End MeanReversion.

End Strategy.

(** ** Performance metrics (backend/app/analytics/performance.py)

    An equity curve is the list of the values of the pandas Series; a trade
    ledger is the list of the values of the ["pnl"] column of the
    DataFrame, in row order. *)

Module PerformanceMetrics.

(** pandas reductions skip NaN entries. *)
Definition dropna (l : list fval) : list fval :=
  filter (fun x => negb (is_nan x)) l.

Definition fillna (v : fval) (l : list fval) : list fval :=
  map (fun x => if is_nan x then v else x) l.

Fixpoint pct_change_from (prev : Q) (l : list Q) : list fval :=
  match l with
  | [] => []
  | x :: rest => fsub (fdiv (Fin x) (Fin prev)) (Fin 1) :: pct_change_from x rest
  end.

Definition pct_change (l : list Q) : list fval :=
  match l with
  | [] => []
  | x :: rest => NaN :: pct_change_from x rest
  end.

Definition calculate_returns (equity_curve : list Q) : list fval :=
  fillna (Fin 0) (pct_change equity_curve).

(** [Series.mean()]: NaN when nothing is left to average. *)
Definition pd_mean (l : list fval) : fval :=
  let xs := dropna l in
  match xs with
  | [] => NaN
  | _ => fdiv (fsum xs) (Fin (inject_Z (Z.of_nat (length xs))))
  end.

(** [iloc[-1]] and [iloc[0]] raise IndexError on an empty Series. *)
Definition iloc_first (l : list Q) : result Q :=
  match l with
  | [] => Raise IndexError
  | x :: _ => Ok x
  end.

Definition iloc_last (l : list Q) : result Q :=
  match l with
  | [] => Raise IndexError
  | x :: rest => Ok (List.last rest x)
  end.

Definition total_return (equity_curve : list Q) : result fval :=
  bind (iloc_last equity_curve) (fun last =>
  bind (iloc_first equity_curve) (fun first =>
  Ok (fsub (fdiv (Fin last) (Fin first)) (Fin 1)))).

Section Metrics.

(** Square root on non-negative floats, and float exponentiation [**]. *)
Variable sqrtQ : Q -> Q.
Variable fpow : fval -> fval -> fval.

Definition np_sqrt (x : fval) : fval :=
  match x with
  | Fin q => if Qlt_bool q 0 then NaN else Fin (sqrtQ q)
  | PInf => PInf
  | NInf => NaN
  | NaN => NaN
  end.

(** [Series.std()]: the sample standard deviation (ddof = 1), NaN when
    fewer than two values are left. *)
Definition pd_std (l : list fval) : fval :=
  let xs := dropna l in
  let n := length xs in
  if (n <=? 1)%nat then NaN
  else
    let mean := fdiv (fsum xs) (Fin (inject_Z (Z.of_nat n))) in
    let sq := map (fun x => fmul (fsub x mean) (fsub x mean)) xs in
    np_sqrt (fdiv (fsum sq) (Fin (inject_Z (Z.of_nat n - 1)))).

Definition annual_return (equity_curve : list Q) (trading_days : Z) : result fval :=
  let total_days := Z.of_nat (length equity_curve) in
  if (trading_days =? 0)%Z then Raise ZeroDivisionError
  else
    let years := inject_Z total_days / inject_Z trading_days in
    bind (total_return equity_curve) (fun total_ret =>
    if Qle_bool years 0 then Ok (Fin 0)
    else Ok (fsub (fpow (fadd (Fin 1) total_ret) (Fin (1 / years))) (Fin 1))).

Definition sharpe_ratio (equity_curve : list Q) (risk_free_rate : Q)
    (trading_days : Z) : result fval :=
  let returns := calculate_returns equity_curve in
  if (trading_days =? 0)%Z then Raise ZeroDivisionError
  else
    let daily_rf := risk_free_rate / inject_Z trading_days in
    let excess := map (fun r => fsub r (Fin daily_rf)) returns in
    if feq (pd_std returns) (Fin 0) then Ok (Fin 0)
    else Ok (fdiv (fmul (np_sqrt (Fin (inject_Z trading_days))) (pd_mean excess))
                  (pd_std returns)).

Definition sortino_ratio (equity_curve : list Q) (risk_free_rate : Q)
    (trading_days : Z) : result fval :=
  let returns := calculate_returns equity_curve in
  if (trading_days =? 0)%Z then Raise ZeroDivisionError
  else
    let daily_rf := risk_free_rate / inject_Z trading_days in
    let excess := map (fun r => fsub r (Fin daily_rf)) returns in
    let downside := filter (fun r => flt r (Fin 0)) returns in
    if (length downside =? 0)%nat || feq (pd_std downside) (Fin 0) then Ok (Fin 0)
    else Ok (fdiv (fmul (np_sqrt (Fin (inject_Z trading_days))) (pd_mean excess))
                  (pd_std downside)).

End Metrics.

Definition profit_factor (trades : list Q) : fval :=
  if (length trades =? 0)%nat then Fin 0
  else
    let gross_profit := Qsum (filter (fun pnl => Qlt_bool 0 pnl) trades) in
    let gross_loss := Qabs (Qsum (filter (fun pnl => Qlt_bool pnl 0) trades)) in
    if Qeq_bool gross_loss 0 then
      (if Qlt_bool 0 gross_profit then PInf else Fin 0)
    else Fin (gross_profit / gross_loss).

(** The boolean column scanned by [max_consecutive]. *)
Definition classify (win : bool) (pnl : Q) : bool :=
  if win then Qlt_bool 0 pnl else Qle_bool pnl 0.

(** One iteration of [for r in results]; the state is
    [(max_streak, current)]. *)
Definition streak_step (st : nat * nat) (r : bool) : nat * nat :=
  let '(max_streak, current) := st in
  if r then
    let current := S current in
    (Nat.max max_streak current, current)
  else (max_streak, 0%nat).

Definition max_consecutive (trades : list Q) (win : bool) : nat :=
  if (length trades =? 0)%nat then 0%nat
  else
    let results := map (classify win) trades in
    fst (fold_left streak_step results (0%nat, 0%nat)).

(** [Series.expanding().max()]: the running maximum. *)
Fixpoint expanding_max_from (m : Q) (l : list Q) : list Q :=
  match l with
  | [] => []
  | x :: rest =>
      let m := if Qlt_bool m x then x else m in
      m :: expanding_max_from m rest
  end.

Definition expanding_max (l : list Q) : list Q :=
  match l with
  | [] => []
  | x :: _ => expanding_max_from x l
  end.

(** [Series.min()]: the smallest entry that is not NaN, NaN when there is
    none. *)
Definition pd_min (l : list fval) : fval :=
  match dropna l with
  | [] => NaN
  | x :: rest => fold_left (fun m y => if flt y m then y else m) rest x
  end.

Definition fabs (x : fval) : fval :=
  match x with
  | Fin q => Fin (Qabs q)
  | PInf | NInf => PInf
  | NaN => NaN
  end.

(** The series [(equity_curve - cummax) / cummax]. *)
Definition drawdown_series (equity_curve cummax : list Q) : list fval :=
  map (fun ec => fdiv (Fin (fst ec - snd ec)) (Fin (snd ec)))
      (combine equity_curve cummax).

Definition max_drawdown (equity_curve : list Q) : fval :=
  let cummax := expanding_max equity_curve in
  let dd := drawdown_series equity_curve cummax in
  fabs (pd_min dd).

Definition win_rate (trades : list Q) : Q :=
  if (length trades =? 0)%nat then 0
  else
    inject_Z (Z.of_nat (length (filter (fun pnl => Qlt_bool 0 pnl) trades)))
    / inject_Z (Z.of_nat (length trades)).

End PerformanceMetrics.

(** ** Frontend API client (frontend/lib/api-client.ts) *)

Module ApiClient.

(** A point of [equity_curve_data] as the backend sends it; [Number(p.equity)]
    is taken to be a finite number. *)
Record RawPoint : Type := mkRawPoint {
  timestamp : string;
  raw_equity : Q;
  raw_cash : Q
}.

Record EquityCurvePoint : Type := mkEquityCurvePoint {
  date : string;
  equity : Q;
  drawdown : Q
}.

(** The callback of [map], with the captured variable [peak] threaded
    through. *)
Definition map_point (peak : Q) (p : RawPoint) : Q * EquityCurvePoint :=
  let equity := raw_equity p in
  let peak := if Qlt_bool peak equity then equity else peak in
  let drawdown := if Qlt_bool 0 peak then (equity - peak) / peak else 0 in
  (peak, {| date := timestamp p; equity := equity; drawdown := drawdown |}).

Fixpoint map_points (peak : Q) (data : list RawPoint) : list EquityCurvePoint :=
  match data with
  | [] => []
  | p :: rest =>
      let '(peak, point) := map_point peak p in
      point :: map_points peak rest
  end.

(** The conversion [getBacktest] applies when [equity_curve_data] is present
    and non-empty. *)
Definition derive_equity_curve (data : list RawPoint) : list EquityCurvePoint :=
  match data with
  | [] => []
  | p0 :: _ => map_points (raw_equity p0) data
  end.

End ApiClient.


(** ** Specification vocabulary *)

(** [is_run results i k]: the [k] consecutive entries of [results] from
    index [i] on are all true. *)
Definition is_run (results : list bool) (i k : nat) : Prop :=
  forall j, (j < k)%nat -> nth_error results (i + j) = Some true.

(** [is_running_peak es i pk]: [pk] is the maximum of the entries of [es] at
    indices up to and including [i]. *)
Definition is_running_peak (es : list Q) (i : nat) (pk : Q) : Prop :=
  (exists j, (j <= i)%nat /\ nth_error es j = Some pk)
  /\ (forall j e, (j <= i)%nat -> nth_error es j = Some e -> e <= pk).

(** A concrete square root, exact to six decimals from below, used to run
    the model on examples. *)
Definition Qsqrt_approx (x : Q) : Q :=
  Z.sqrt (Qnum x * Z.pos (Qden x) * 1000000000000) # (Qden x * 1000000).

(** The outcome sequence W, W, W, L, L, W; the fourth trade breaks even. *)
Definition sample_ledger : list Q := [5; 1; 2; 0; -1; 4].

(** [peak_from peak es i pk]: [pk] is the maximum of [peak] and the entries
    of [es] at indices up to and including [i]. *)
Definition peak_from (peak : Q) (es : list Q) (i : nat) (pk : Q) : Prop :=
  peak <= pk
  /\ (pk = peak \/ exists j, (j <= i)%nat /\ nth_error es j = Some pk)
  /\ (forall j e, (j <= i)%nat -> nth_error es j = Some e -> e <= pk).

(** The drawdown of an equity value against a peak. *)
Definition drawdown_of (equity peak : Q) : Q :=
  if Qlt_bool 0 peak then (equity - peak) / peak else 0.

(** The orders one iteration of the loop of [on_bar] appends for a symbol
    whose history, current close included, is [history]. *)
Definition emitted (sqrtQ : Q -> Q) (params : Strategy.Parameters)
    (portfolio : Portfolio) (history : list Q) (sym : string) (close : Q)
    : list Strategy.PendingOrder :=
  let lookback := Strategy.lookback_period params in
  if (Z.of_nat (length history) <? lookback)%Z then []
  else
    let prices := Strategy.window lookback history in
    match Strategy.np_mean prices, Strategy.np_std sqrtQ prices with
    | Some mean, Some std =>
        if Qeq_bool std 0 then []
        else
          let z_score := (close - mean) / std in
          if Qlt_bool z_score (- Strategy.entry_threshold params)
             && bool_decide (get_position portfolio sym = None)
          then [Strategy.buy_order params sym z_score]
          else if bool_decide (is_Some (get_position portfolio sym))
                  && Qlt_bool (- Strategy.exit_threshold params) z_score
          then [Strategy.sell_order params sym z_score]
          else []
    | _, _ => []
    end.

(** The orders of a list that are for symbol [s], in order. *)
Definition orders_for (s : string) (orders : list Strategy.PendingOrder)
    : list Strategy.PendingOrder :=
  List.filter (fun o => bool_decide (Strategy.symbol o = s)) orders.

(** Sample inputs used to run the strategy. *)
Definition sample_params : Strategy.Parameters :=
  {| Strategy.lookback_period := 3;
     Strategy.entry_threshold := 1;
     Strategy.exit_threshold := 5 # 10;
     Strategy.position_weight := 3 # 10 |}.

Definition sample_state : gmap string Strategy.SymbolState :=
  {[ "AAA"%string := {| Strategy.price_history := [10; 10];
                        Strategy.volume_history := [] |} ]}.

Definition flat_portfolio : Portfolio :=
  {| cash := 1000000; positions := ∅ |}.

Definition sample_bar (close : Q) : Strategy.Bar :=
  {| Strategy.bar_open := close; Strategy.bar_high := close;
     Strategy.bar_low := close; Strategy.bar_close := close;
     Strategy.bar_volume := 1000 |}.

(** A float that is a finite zero. *)
Definition fin_zero (v : fval) : Prop :=
  match v with
  | Fin q => q == 0
  | _ => False
  end.

(** Product of a list of rationals. *)
Definition Qprod (l : list Q) : Q := fold_right Qmult 1 l.

(** An equity curve as the backend would send it, timestamps and cash left
    blank. *)
Definition as_raw_points (equity_curve : list Q) : list ApiClient.RawPoint :=
  map (fun e => ApiClient.mkRawPoint "" e 0) equity_curve.

(** ** Drawdown chart (frontend/components/charts/DrawdownChart.tsx) *)

Module DrawdownChart.

(** [EquityCurvePoint] of lib/types.ts; [drawdown] is optional there. *)
Record Point : Type := mkPoint {
  date : string;
  equity : Q;
  drawdown : option Q
}.

Record DdPoint : Type := mkDdPoint {
  dd_date : string;
  dd_drawdown : Q
}.

(** [ddData], the series the chart plots; [None] when the component renders
    nothing ([!data || data.length === 0]). *)
Definition ddData (data : option (list Point)) : option (list DdPoint) :=
  match data with
  | None => None
  | Some [] => None
  | Some l =>
      Some (map (fun d =>
                   {| dd_date := date d;
                      dd_drawdown := match drawdown d with
                                     | Some x => x * 100
                                     | None => 0
                                     end |}) l)
  end.

(** A point as [getBacktest] hands it to the page. *)
Definition of_api (p : ApiClient.EquityCurvePoint) : Point :=
  {| date := ApiClient.date p;
     equity := ApiClient.equity p;
     drawdown := Some (ApiClient.drawdown p) |}.

End DrawdownChart.

(** ** Trades table (frontend/components/TradesTable.tsx) *)

(** [Array.prototype.slice(start, end)]. *)
Definition js_slice {A : Type} (start end_ : Z) (l : list A) : list A :=
  let len := Z.of_nat (length l) in
  let k := if (start <? 0)%Z then Z.max (len + start) 0 else Z.min start len in
  let final := if (end_ <? 0)%Z then Z.max (len + end_) 0 else Z.min end_ len in
  firstn (Z.to_nat (Z.max (final - k) 0)) (skipn (Z.to_nat k) l).

Module TradesTable.

Definition PAGE_SIZE : Z := 15.

Definition totalPages {A : Type} (sorted : list A) : Z :=
  Qceiling (inject_Z (Z.of_nat (length sorted)) / inject_Z PAGE_SIZE).

Definition paged {A : Type} (page : Z) (sorted : list A) : list A :=
  js_slice ((page - 1) * PAGE_SIZE) (page * PAGE_SIZE) sorted.

End TradesTable.

(** * The binary64 model *)

Set Warnings "-inexact-float".

(** ** Python floats *)

Module F64.

(** The exact value of a finite float, and 0 for the others. *)
Definition SF2Q (x : spec_float) : Q :=
  match x with
  | S754_finite s m e => inject_Z (cond_Zopp s (Z.pos m)) * Qpower 2 e
  | _ => 0
  end.

Definition value (x : float) : Q := SF2Q (Prim2SF x).

Definition is_finite (x : float) : bool :=
  match Prim2SF x with
  | S754_zero _ | S754_finite _ _ _ => true
  | S754_infinity _ | S754_nan => false
  end.

Definition is_nan (x : float) : bool :=
  match Prim2SF x with
  | S754_nan => true
  | _ => false
  end.

Definition is_inf (x : float) : bool :=
  match Prim2SF x with
  | S754_infinity _ => true
  | _ => false
  end.

(** [math.floor]: ValueError on NaN, OverflowError on an infinity. *)
Definition math_floor (x : float) : result Z :=
  match Prim2SF x with
  | S754_nan => Raise ValueError
  | S754_infinity _ => Raise OverflowError
  | sf => Ok (Qfloor (SF2Q sf))
  end.

(** Conversion of a Python [int] operand of a float operation: rounded to
    nearest, ties to even; OverflowError when the integer is too large. *)
Definition of_int (z : Z) : result float :=
  match binary_normalize prec emax z 0 false with
  | S754_infinity _ => Raise OverflowError
  | sf => Ok (SF2Prim sf)
  end.

(** Conversion of a small count, which cannot overflow. *)
Definition of_nat (n : nat) : float :=
  SF2Prim (binary_normalize prec emax (Z.of_nat n) 0 false).

(** [a / b] on Python floats raises on a zero divisor. *)
Definition py_div (a b : float) : result float :=
  if PrimFloat.eqb b 0%float then Raise ZeroDivisionError
  else Ok (PrimFloat.div a b).

(** [max(a, b)] and [min(a, b)]: the first argument is kept unless the
    second is strictly greater (smaller). *)
Definition py_max (a b : float) : float := if PrimFloat.ltb a b then b else a.
Definition py_min (a b : float) : float := if PrimFloat.ltb b a then b else a.

End F64.

(** ** Market configuration on floats (backend/app/config.py)

    pydantic converts the integer literals of the table to floats. *)

Record MarketConfig64 : Type := mkMarketConfig64 {
  commission_rate64 : float;
  min_commission64 : float;
  slippage_daily64 : float;
  slippage_hourly64 : float;
  min_order_amount64 : float;
  currency64 : string;
  trading_days_per_year64 : Z
}.

Definition KR64 : MarketConfig64 :=
  {| commission_rate64 := 0.00015;
     min_commission64 := 0;
     slippage_daily64 := 0.001;
     slippage_hourly64 := 0.0005;
     min_order_amount64 := 100000;
     currency64 := "KRW";
     trading_days_per_year64 := 245 |}.

Definition US64 : MarketConfig64 :=
  {| commission_rate64 := 0.0025;
     min_commission64 := 1;
     slippage_daily64 := 0.001;
     slippage_hourly64 := 0.0005;
     min_order_amount64 := 100;
     currency64 := "USD";
     trading_days_per_year64 := 252 |}.

(** ** Broker on floats (backend/app/engine/broker.py) *)

Module Broker64.

Record t : Type := mk {
  config : MarketConfig64;
  timeframe : TimeframeType
}.

Definition MAX_POSITION_WEIGHT : float := 0.40.
Definition MIN_CASH_RESERVE_RATIO : float := 0.05.

(** [fill_price * quantity * commission_rate], then the minimum; the
    integer quantity is converted for the first product. *)
Definition calculate_commission (self : t) (fill_price : float) (quantity : Z)
    : result float :=
  bind (F64.of_int quantity) (fun q =>
  let raw := (fill_price * q * commission_rate64 (config self))%float in
  Ok (F64.py_max raw (min_commission64 (config self)))).

Definition clamped_target (portfolio_equity weight current_position_value : float)
    : float :=
  let target_value := (portfolio_equity * weight)%float in
  let max_value := (portfolio_equity * MAX_POSITION_WEIGHT)%float in
  let allowed_value := (max_value - current_position_value)%float in
  F64.py_min target_value allowed_value.

Definition calculate_quantity (self : t)
    (portfolio_equity weight fill_price current_position_value : float)
    : result Z :=
  let target_value := clamped_target portfolio_equity weight current_position_value in
  if PrimFloat.ltb target_value (min_order_amount64 (config self)) then Ok 0%Z
  else
    bind (F64.py_div target_value fill_price) (fun quotient =>
    bind (F64.math_floor quotient) (fun quantity =>
    Ok (Z.max quantity 0))).

Definition validate_order (self : t)
    (portfolio_equity available_cash fill_price : float) (quantity : Z)
    : result (bool * option Broker.RejectReason) :=
  bind (F64.of_int quantity) (fun q =>
  let order_value := (fill_price * q)%float in
  bind (calculate_commission self fill_price quantity) (fun commission =>
  let total_cost := (order_value + commission)%float in
  if PrimFloat.ltb available_cash total_cost
  then Ok (false, Some Broker.INSUFFICIENT_CASH)
  else
    let remaining := (available_cash - total_cost)%float in
    if PrimFloat.ltb remaining (portfolio_equity * MIN_CASH_RESERVE_RATIO)%float
    then Ok (false, Some Broker.CASH_RESERVE_VIOLATION)
    else if PrimFloat.ltb order_value (min_order_amount64 (config self))
    then Ok (false, Some Broker.BELOW_MIN_ORDER)
    else Ok (true, None))).

End Broker64.

(** ** Mean reversion on floats (backend/app/strategies/base.py,
       mean_reversion.py)

    [np.mean] and [np.std] belong to numpy, not to this repository; the
    strategy is modelled over whatever they return. *)

Module Strategy64.

Inductive ReasonText : Type :=
| ZScoreBelowEntry (z_score threshold : float)
| ZScoreAboveExit (z_score threshold : float).

Record PendingOrder : Type := mkPendingOrder {
  symbol : string;
  side : OrderSide;
  weight : float;
  reason : option ReasonText
}.

Record Bar : Type := mkBar {
  bar_open : float;
  bar_high : float;
  bar_low : float;
  bar_close : float;
  bar_volume : float
}.

Record SymbolState : Type := mkSymbolState {
  price_history : list float;
  volume_history : list float
}.

Definition _init_state : SymbolState :=
  {| price_history := []; volume_history := [] |}.

Definition _get_state (_state : gmap string SymbolState) (sym : string)
    : SymbolState * gmap string SymbolState :=
  match _state !! sym with
  | Some st => (st, _state)
  | None => (_init_state, <[sym := _init_state]> _state)
  end.

Record Parameters : Type := mkParameters {
  lookback_period : Z;
  entry_threshold : float;
  exit_threshold : float;
  position_weight : float
}.

Definition defaults : Parameters :=
  {| lookback_period := 20;
     entry_threshold := 2.0;
     exit_threshold := 0.5;
     position_weight := 0.3 |}.

Section MeanReversion.

Variable np_mean : list float -> float.
Variable np_std : list float -> float.

(** [state["price_history"][-lookback:]]. *)
Definition window (lookback : Z) (history : list float) : list float :=
  py_slice_from (- lookback)%Z history.

Definition buy_order (params : Parameters) (sym : string) (z_score : float)
    : PendingOrder :=
  {| symbol := sym; side := BUY; weight := position_weight params;
     reason := Some (ZScoreBelowEntry z_score (entry_threshold params)) |}.

Definition sell_order (params : Parameters) (sym : string) (z_score : float)
    : PendingOrder :=
  {| symbol := sym; side := SELL; weight := 1.0;
     reason := Some (ZScoreAboveExit z_score (exit_threshold params)) |}.

(** Body of the loop [for symbol, bar in bars.items()]. *)
Definition on_bar_symbol (params : Parameters) (portfolio : Portfolio)
    (acc : list PendingOrder * gmap string SymbolState)
    (item : string * Bar) : list PendingOrder * gmap string SymbolState :=
  let '(orders, _state) := acc in
  let '(sym, bar) := item in
  let '(state, _state) := _get_state _state sym in
  let close := bar_close bar in
  let state :=
    {| price_history := price_history state ++ [close];
       volume_history := volume_history state |} in
  let _state := <[sym := state]> _state in
  let lookback := lookback_period params in
  if (Z.of_nat (length (price_history state)) <? lookback)%Z then (orders, _state)
  else
    let prices := window lookback (price_history state) in
    let mean := np_mean prices in
    let std := np_std prices in
    if PrimFloat.eqb std 0 then (orders, _state)
    else
      let z_score := ((close - mean) / std)%float in
      let position := get_position portfolio sym in
      if PrimFloat.ltb z_score (- entry_threshold params)
         && bool_decide (position = None)
      then (orders ++ [buy_order params sym z_score], _state)
      else if bool_decide (is_Some position)
              && PrimFloat.ltb (- exit_threshold params) z_score
      then (orders ++ [sell_order params sym z_score], _state)
      else (orders, _state).

Definition on_bar (params : Parameters) (_state : gmap string SymbolState)
    (bars : list (string * Bar)) (portfolio : Portfolio)
    : list PendingOrder * gmap string SymbolState :=
  fold_left (on_bar_symbol params portfolio) bars ([], _state).

(** The history of a symbol as [on_bar] sees it after appending the close. *)
Definition history_with (_state : gmap string SymbolState) (sym : string)
    (close : float) : list float :=
  price_history (fst (_get_state _state sym)) ++ [close].

End MeanReversion.

End Strategy64.

(** ** Specification vocabulary of the binary64 model *)


(** What numpy returns on an array of fewer than eight elements, where its
    summation is a plain left-to-right loop: [np.mean] is the sum over the
    count, [np.std] the square root of the mean of the squared deviations
    from that mean.  On a window of equal closes the order of the additions
    does not change the result. *)
Definition np_mean_seq (a : list float) : float :=
  (fold_left PrimFloat.add a 0 / F64.of_nat (length a))%float.

Definition np_std_seq (a : list float) : float :=
  let mean := np_mean_seq a in
  PrimFloat.sqrt (np_mean_seq (map (fun x => ((x - mean) * (x - mean))%float) a)).

(** The orders one iteration of the loop appends for a symbol whose history,
    current close included, is [history]. *)
Definition emitted64 (np_mean np_std : list float -> float)
    (params : Strategy64.Parameters) (portfolio : Portfolio)
    (history : list float) (sym : string) (close : float)
    : list Strategy64.PendingOrder :=
  let lookback := Strategy64.lookback_period params in
  if (Z.of_nat (length history) <? lookback)%Z then []
  else
    let prices := Strategy64.window lookback history in
    let std := np_std prices in
    if PrimFloat.eqb std 0 then []
    else
      let z_score := ((close - np_mean prices) / std)%float in
      if PrimFloat.ltb z_score (- Strategy64.entry_threshold params)
         && bool_decide (get_position portfolio sym = None)
      then [Strategy64.buy_order params sym z_score]
      else if bool_decide (is_Some (get_position portfolio sym))
              && PrimFloat.ltb (- Strategy64.exit_threshold params) z_score
      then [Strategy64.sell_order params sym z_score]
      else [].

Definition orders_for64 (s : string) (orders : list Strategy64.PendingOrder)
    : list Strategy64.PendingOrder :=
  List.filter (fun o => bool_decide (Strategy64.symbol o = s)) orders.

(** Sample inputs: three closes seen, lookback 3, and a portfolio holding
    the symbol. *)
Definition params64 : Strategy64.Parameters :=
  {| Strategy64.lookback_period := 3;
     Strategy64.entry_threshold := 2.0;
     Strategy64.exit_threshold := 0.5;
     Strategy64.position_weight := 0.3 |}.

Definition state64 (c : float) : gmap string Strategy64.SymbolState :=
  {[ "AAA"%string := {| Strategy64.price_history := [c; c];
                        Strategy64.volume_history := [] |} ]}.

Definition bar64 (close : float) : Strategy64.Bar :=
  {| Strategy64.bar_open := close; Strategy64.bar_high := close;
     Strategy64.bar_low := close; Strategy64.bar_close := close;
     Strategy64.bar_volume := 1000 |}.

Definition holding_portfolio : Portfolio :=
  {| cash := 0; positions := {[ "AAA"%string := mkPosition "AAA" 5 10 55 ]} |}.



(** * Theorems *)

(** ** Basic facts on boolean comparisons *)

Lemma Qlt_bool_iff (a b : Q) : Qlt_bool a b = true <-> a < b.
Proof.
  unfold Qlt_bool. rewrite negb_true_iff.
  split; intro H.
  - apply Qnot_le_lt. intro Hle. apply Qle_bool_iff in Hle. congruence.
  - destruct (Qle_bool b a) eqn:E; [|reflexivity].
    apply Qle_bool_iff in E. exfalso. apply (Qlt_not_le _ _ H E).
Qed.

Lemma Qlt_bool_false_iff (a b : Q) : Qlt_bool a b = false <-> b <= a.
Proof.
  unfold Qlt_bool. rewrite negb_false_iff. apply Qle_bool_iff.
Qed.

Lemma py_max_Qmax (a b : Q) : py_max a b == Qmax a b.
Proof.
  unfold py_max. destruct (Qlt_bool a b) eqn:E.
  - apply Qlt_bool_iff in E. symmetry. apply Q.max_r. lra.
  - apply Qlt_bool_false_iff in E. symmetry. apply Q.max_l. lra.
Qed.

Lemma py_min_Qmin (a b : Q) : py_min a b == Qmin a b.
Proof.
  unfold py_min. destruct (Qlt_bool b a) eqn:E.
  - apply Qlt_bool_iff in E. symmetry. apply Q.min_r. lra.
  - apply Qlt_bool_false_iff in E. symmetry. apply Q.min_l. lra.
Qed.

(** ** Broker *)

Lemma clamped_target_Qmin (equity weight cpv : Q) :
  Broker.clamped_target equity weight cpv
  == Qmin (equity * weight) (equity * (40 # 100) - cpv).
Proof.
  unfold Broker.clamped_target, Broker.MAX_POSITION_WEIGHT.
  apply py_min_Qmin.
Qed.

(** C3. [calculate_commission] returns
    max(fill_price*quantity*commission_rate, min_commission); under the US
    configuration an order with fill_price*quantity*0.0025 < 1 pays exactly
    the minimum commission 1. *)
Theorem calculate_commission_spec :
  (forall (self : Broker.t) (fill_price : Q) (quantity : Z),
      Broker.calculate_commission self fill_price quantity
      == Qmax (fill_price * inject_Z quantity * commission_rate (Broker.config self))
              (min_commission (Broker.config self)))
  /\ (forall (tf : TimeframeType) (fill_price : Q) (quantity : Z),
      fill_price * inject_Z quantity * (25 # 10000) < 1 ->
      Broker.calculate_commission (Broker.mk US tf) fill_price quantity = 1).
Proof.
  split.
  - intros. unfold Broker.calculate_commission. apply py_max_Qmax.
  - intros tf fill_price quantity H.
    unfold Broker.calculate_commission, py_max. cbn [Broker.config commission_rate min_commission US].
    apply Qlt_bool_iff in H. rewrite H. reflexivity.
Qed.

Lemma calculate_commission_spec_witness :
  Broker.calculate_commission (Broker.mk US D1) 10 3 = 1.
Proof.
  apply (proj2 calculate_commission_spec D1 10 3%Z). reflexivity.
Defined.

(** ** Streaks *)

Import PerformanceMetrics.

Lemma is_run_nil_len (l : list bool) (i : nat) : is_run l i 0.
Proof. intros j Hj. lia. Qed.

Lemma is_run_tail (r : bool) (l : list bool) (i k : nat) :
  is_run (r :: l) (S i) k <-> is_run l i k.
Proof. unfold is_run. cbn. tauto. Qed.

Lemma is_run_head (r : bool) (l : list bool) (k : nat) :
  is_run (r :: l) 0 (S k) <-> r = true /\ is_run l 0 k.
Proof.
  unfold is_run. split.
  - intro H. split.
    + specialize (H 0%nat ltac:(lia)). cbn in H. congruence.
    + intros j Hj. specialize (H (S j) ltac:(lia)). exact H.
  - intros [-> H] [|j] Hj; [reflexivity|].
    cbn. apply (H j). lia.
Qed.

Lemma streak_upper (l : list bool) :
  forall m c, (c <= m)%nat ->
  let M := fst (fold_left streak_step l (m, c)) in
  (m <= M)%nat
  /\ forall i k, is_run l i k ->
       (k <= M)%nat /\ (i = 0%nat -> (c + k <= M)%nat).
Proof.
  induction l as [|r l IH]; intros m c Hcm; cbn [fold_left].
  - cbn. split; [lia|]. intros i [|k] H; [lia|].
    specialize (H 0%nat ltac:(lia)). destruct i; discriminate.
  - set (st := streak_step (m, c) r).
    assert (Hst : (snd st <= fst st)%nat /\ (m <= fst st)%nat
                  /\ (r = true -> snd st = S c)).
    { unfold st. cbn. destruct r; cbn; repeat split; try lia; discriminate. }
    destruct st as [m' c']. cbn [fst snd] in Hst.
    destruct Hst as (H1 & H2 & H3).
    destruct (IH m' c' H1) as [Hm HR]. cbn zeta in *.
    split; [lia|].
    intros i k Hrun.
    destruct k as [|k].
    { split; [lia|]. intros _. lia. }
    destruct i as [|i].
    + apply is_run_head in Hrun. destruct Hrun as [Hr Hrun].
      destruct (HR 0%nat k Hrun) as [_ Hk]. specialize (Hk eq_refl).
      specialize (H3 Hr). split; [lia|]. intros _. lia.
    + apply is_run_tail in Hrun.
      destruct (HR i (S k) Hrun) as [Hk _]. split; [lia|]. discriminate.
Qed.

Lemma streak_attained (l : list bool) :
  forall m c,
  let M := fst (fold_left streak_step l (m, c)) in
  M = m
  \/ (exists k, is_run l 0 k /\ M = (c + k)%nat)
  \/ (exists i k, is_run l i k /\ M = k).
Proof.
  induction l as [|r l IH]; intros m c; cbn [fold_left].
  - left. reflexivity.
  - destruct r; cbn [streak_step].
    + destruct (IH (Nat.max m (S c)) (S c)) as [H|[(k & Hk & H)|(i & k & Hk & H)]];
        cbn zeta in *.
      * destruct (Nat.max_spec m (S c)) as [[_ E]|[_ E]].
        -- right. left. exists 1%nat. split; [|rewrite H; lia].
           apply is_run_head. split; [reflexivity|apply is_run_nil_len].
        -- left. rewrite H. exact E.
      * right. left. exists (S k). split; [|rewrite H; lia].
        apply is_run_head. split; [reflexivity|exact Hk].
      * right. right. exists (S i), k. split; [|exact H].
        apply is_run_tail. exact Hk.
    + destruct (IH m 0%nat) as [H|[(k & Hk & H)|(i & k & Hk & H)]]; cbn zeta in *.
      * left. exact H.
      * right. right. exists 1%nat, k. split; [|exact H].
        apply is_run_tail. exact Hk.
      * right. right. exists (S i), k. split; [|exact H].
        apply is_run_tail. exact Hk.
Qed.

Lemma max_consecutive_fold (trades : list Q) (win : bool) :
  max_consecutive trades win
  = fst (fold_left streak_step (map (classify win) trades) (0%nat, 0%nat)).
Proof.
  unfold max_consecutive. destruct trades; reflexivity.
Qed.

(** C10. The loss streak ([win = false]) classifies a trade as a loss
    exactly when pnl <= 0 and the win streak as a win exactly when pnl > 0,
    so a trade with pnl = 0 extends the current loss streak and resets the
    current win streak; for every ledger [max_consecutive] is the length of
    the longest run of consecutive classified trades, and it is 0 for the
    empty ledger. *)
Theorem max_consecutive_spec :
  (forall pnl, classify false pnl = true <-> pnl <= 0)
  /\ (forall pnl, classify true pnl = true <-> 0 < pnl)
  /\ (forall max_streak current,
        streak_step (max_streak, current) (classify false 0)
        = (Nat.max max_streak (S current), S current)
        /\ streak_step (max_streak, current) (classify true 0) = (max_streak, 0%nat))
  /\ (forall win, max_consecutive [] win = 0%nat)
  /\ (forall trades win,
        let results := map (classify win) trades in
        (exists i, is_run results i (max_consecutive trades win))
        /\ (forall i k, is_run results i k -> (k <= max_consecutive trades win)%nat)).
Proof.
  split; [|split; [|split; [|split]]].
  - intro pnl. unfold classify. apply Qle_bool_iff.
  - intro pnl. unfold classify. apply Qlt_bool_iff.
  - intros. split; reflexivity.
  - reflexivity.
  - intros trades win results.
    rewrite max_consecutive_fold. fold results. split.
    + destruct (streak_attained results 0 0) as [H|[(k & Hk & H)|(i & k & Hk & H)]];
        cbn zeta in H; rewrite H.
      * exists 0%nat. apply is_run_nil_len.
      * exists 0%nat. exact Hk.
      * exists i. exact Hk.
    + intros i k Hrun.
      destruct (streak_upper results 0 0 (le_n _)) as [_ HR].
      exact (proj1 (HR i k Hrun)).
Qed.

Lemma max_consecutive_spec_witness :
  (3 <= max_consecutive sample_ledger true)%nat
  /\ (2 <= max_consecutive sample_ledger false)%nat.
Proof.
  destruct max_consecutive_spec as (_ & _ & _ & _ & H).
  split.
  - apply (proj2 (H sample_ledger true) 0%nat 3%nat).
    intros [|[|[|j]]] Hj; try reflexivity; lia.
  - apply (proj2 (H sample_ledger false) 3%nat 2%nat).
    intros [|[|j]] Hj; try reflexivity; lia.
Defined.

Example max_consecutive_example :
  max_consecutive sample_ledger true = 3%nat
  /\ max_consecutive sample_ledger false = 2%nat.
Proof. split; reflexivity. Qed.

(** ** Profit factor *)

Lemma fold_Qplus (l : list Q) : forall a, fold_left Qplus l a == a + Qsum l.
Proof.
  unfold Qsum. induction l as [|x l IH]; intro a; cbn [fold_left].
  - lra.
  - rewrite IH. rewrite (IH (0 + x)). lra.
Qed.

Lemma Qsum_cons (x : Q) (l : list Q) : Qsum (x :: l) == x + Qsum l.
Proof.
  unfold Qsum at 1. cbn [fold_left]. rewrite fold_Qplus. lra.
Qed.

Lemma Qsum_wins (l : list Q) :
  0 <= Qsum (filter (fun pnl => Qlt_bool 0 pnl) l)
  /\ ((exists p, In p l /\ 0 < p) -> 0 < Qsum (filter (fun pnl => Qlt_bool 0 pnl) l)).
Proof.
  induction l as [|x l [IH1 IH2]].
  - split; [cbn; lra|]. intros (p & [] & _).
  - cbn [filter]. destruct (Qlt_bool 0 x) eqn:E.
    + apply Qlt_bool_iff in E. rewrite Qsum_cons. split; intros; lra.
    + apply Qlt_bool_false_iff in E. split; [exact IH1|].
      intros (p & [->|Hin] & Hp); [lra|].
      apply IH2. exists p. split; assumption.
Qed.

Lemma Qsum_losses (l : list Q) :
  Qsum (filter (fun pnl => Qlt_bool pnl 0) l) <= 0
  /\ ((exists p, In p l /\ p < 0) -> Qsum (filter (fun pnl => Qlt_bool pnl 0) l) < 0).
Proof.
  induction l as [|x l [IH1 IH2]].
  - split; [cbn; lra|]. intros (p & [] & _).
  - cbn [filter]. destruct (Qlt_bool x 0) eqn:E.
    + apply Qlt_bool_iff in E. rewrite Qsum_cons. split; intros; lra.
    + apply Qlt_bool_false_iff in E. split; [exact IH1|].
      intros (p & [->|Hin] & Hp); [lra|].
      apply IH2. exists p. split; assumption.
Qed.

Lemma filter_none (f : Q -> bool) (l : list Q) :
  (forall p, In p l -> f p = false) -> filter f l = [].
Proof.
  induction l as [|x l IH]; intro H; [reflexivity|].
  cbn [filter]. rewrite (H x (or_introl eq_refl)).
  apply IH. intros p Hp. apply H. right. exact Hp.
Qed.

(** C8. [profit_factor] is the sum of the winning pnl over the absolute
    value of the sum of the losing pnl whenever some trade loses; it is
    +infinity when some trade wins and none loses, and 0 for the empty
    ledger. *)
Theorem profit_factor_spec (trades : list Q) :
  let gross_profit := Qsum (filter (fun pnl => Qlt_bool 0 pnl) trades) in
  let gross_loss := Qabs (Qsum (filter (fun pnl => Qlt_bool pnl 0) trades)) in
  (trades = [] -> profit_factor trades = Fin 0)
  /\ ((exists p, In p trades /\ 0 < p) ->
      (forall p, In p trades -> ~ p < 0) ->
      profit_factor trades = PInf)
  /\ ((exists p, In p trades /\ p < 0) ->
      0 < gross_loss
      /\ profit_factor trades = Fin (gross_profit / gross_loss)).
Proof.
  intros gp gl. split; [|split].
  - intros ->. reflexivity.
  - intros Hwin Hnoloss.
    unfold profit_factor.
    destruct trades as [|t ts]; [destruct Hwin as (p & [] & _)|].
    cbn [length Nat.eqb].
    rewrite (filter_none (fun pnl => Qlt_bool pnl 0) (t :: ts)).
    2:{ intros p Hp. apply Qlt_bool_false_iff. apply Qnot_lt_le. apply Hnoloss, Hp. }
    change (Qeq_bool (Qabs (Qsum [])) 0) with true. cbn match.
    destruct (Qsum_wins (t :: ts)) as [_ H]. specialize (H Hwin).
    apply Qlt_bool_iff in H. rewrite H. reflexivity.
  - intros Hloss.
    destruct (Qsum_losses trades) as [_ H]. specialize (H Hloss).
    assert (Hgl : 0 < gl).
    { unfold gl. rewrite Qabs_neg by lra. lra. }
    split; [exact Hgl|].
    unfold profit_factor.
    destruct trades as [|t ts]; [destruct Hloss as (p & [] & _)|].
    cbn [length Nat.eqb]. fold gp. fold gl.
    destruct (Qeq_bool gl 0) eqn:E; [|reflexivity].
    apply Qeq_bool_iff in E. lra.
Qed.

Lemma profit_factor_spec_witness :
  profit_factor [] = Fin 0
  /\ profit_factor [3; 0; 2] = PInf
  /\ profit_factor [3; -2; 1] = Fin (Qsum [3; 1] / Qabs (Qsum [-2])).
Proof.
  split; [|split].
  - apply (proj1 (profit_factor_spec [])). reflexivity.
  - apply (proj1 (proj2 (profit_factor_spec [3; 0; 2]))).
    + exists 3. split; [left; reflexivity | reflexivity].
    + intros p [<-|[<-|[<-|[]]]]; discriminate.
  - apply (proj2 (proj2 (profit_factor_spec [3; -2; 1]))).
    exists (-2). split; [right; left; reflexivity | reflexivity].
Defined.

(** ** Drawdown derivation in the API client *)

Import ApiClient.

Lemma drawdown_of_nonpos (e pk : Q) : e <= pk -> drawdown_of e pk <= 0.
Proof.
  intro H. unfold drawdown_of.
  destruct (Qlt_bool 0 pk) eqn:E; [|lra].
  apply Qlt_bool_iff in E.
  apply Qle_shift_div_r; [exact E | lra].
Qed.

Lemma drawdown_of_self (e : Q) : drawdown_of e e == 0.
Proof.
  unfold drawdown_of.
  destruct (Qlt_bool 0 e) eqn:E; [|reflexivity].
  apply Qlt_bool_iff in E. field. lra.
Qed.

Lemma map_points_length (data : list RawPoint) :
  forall peak, length (map_points peak data) = length data.
Proof.
  induction data as [|p data IH]; intro peak; cbn; [reflexivity|].
  rewrite IH. reflexivity.
Qed.

Lemma map_points_nth (data : list RawPoint) :
  forall peak i p,
    nth_error data i = Some p ->
    exists pk,
      peak_from peak (map raw_equity data) i pk
      /\ nth_error (map_points peak data) i
         = Some {| date := timestamp p; equity := raw_equity p;
                   drawdown := drawdown_of (raw_equity p) pk |}.
Proof.
  induction data as [|p0 data IH]; intros peak i p Hp.
  - destruct i; discriminate.
  - cbn [map_points map_point map].
    set (peak' := if Qlt_bool peak (raw_equity p0) then raw_equity p0 else peak).
    assert (Hpk : peak <= peak' /\ raw_equity p0 <= peak'
                  /\ (peak' = peak \/ peak' = raw_equity p0)).
    { unfold peak'. destruct (Qlt_bool peak (raw_equity p0)) eqn:E.
      - apply Qlt_bool_iff in E. repeat split; try lra. right. reflexivity.
      - apply Qlt_bool_false_iff in E. repeat split; try lra. left. reflexivity. }
    destruct Hpk as (H1 & H2 & H3).
    destruct i as [|i].
    + injection Hp as <-. exists peak'. split; [|reflexivity].
      split; [exact H1|]. split.
      * destruct H3 as [H3|H3]; [left; exact H3|].
        right. exists 0%nat. split; [lia|]. cbn. rewrite H3. reflexivity.
      * intros j e Hj He. assert (j = 0%nat) by lia. subst j.
        cbn in He. injection He as <-. exact H2.
    + cbn [nth_error] in Hp.
      destruct (IH peak' i p Hp) as (pk & (Hle & Hatt & Hub) & Hnth).
      exists pk. split; [|exact Hnth].
      split; [lra|]. split.
      * destruct Hatt as [Hatt|(j & Hj & Hatt)].
        -- destruct H3 as [H3|H3]; [left; congruence|].
           right. exists 0%nat. split; [lia|]. cbn. congruence.
        -- right. exists (S j). split; [lia|]. exact Hatt.
      * intros [|j] e Hj He.
        -- cbn in He. injection He as <-. lra.
        -- cbn in He. apply (Hub j e); [lia | exact He].
Qed.

(** C9. For a non-empty equity curve [getBacktest] keeps date and equity of
    every point and derives its drawdown as (equity - peak)/peak, or 0 when
    the peak is not positive, where the peak is the maximum equity over the
    points up to and including the current one; every derived drawdown is
    at most 0 and the first one is 0. *)
Theorem getBacktest_drawdown (data : list RawPoint) :
  data <> [] ->
  let es := map raw_equity data in
  let out := derive_equity_curve data in
  length out = length data
  /\ (forall i p, nth_error data i = Some p ->
        exists pk,
          is_running_peak es i pk
          /\ nth_error out i
             = Some {| date := timestamp p; equity := raw_equity p;
                       drawdown := if Qlt_bool 0 pk
                                   then (raw_equity p - pk) / pk else 0 |})
  /\ (forall o, In o out -> drawdown o <= 0)
  /\ (exists o, nth_error out 0 = Some o /\ drawdown o == 0).
Proof.
  intros Hne es out.
  destruct data as [|p0 data]; [congruence|].
  assert (Hpt : forall i p, nth_error (p0 :: data) i = Some p ->
            exists pk, is_running_peak es i pk
              /\ nth_error out i
                 = Some {| date := timestamp p; equity := raw_equity p;
                           drawdown := drawdown_of (raw_equity p) pk |}).
  { intros i p Hp.
    destruct (map_points_nth (p0 :: data) (raw_equity p0) i p Hp)
      as (pk & (Hle & Hatt & Hub) & Hnth).
    exists pk. split; [|exact Hnth].
    split; [|exact Hub].
    destruct Hatt as [->|Hatt]; [|exact Hatt].
    exists 0%nat. split; [lia | reflexivity]. }
  split; [apply map_points_length|]. split; [exact Hpt|]. split.
  - intros o Ho. apply In_nth_error in Ho. destruct Ho as [i Hi].
    assert (Hlt : (i < length (p0 :: data))%nat).
    { rewrite <- (map_points_length (p0 :: data) (raw_equity p0)).
      apply nth_error_Some. unfold out, derive_equity_curve in Hi. congruence. }
    destruct (nth_error (p0 :: data) i) as [p|] eqn:Hp;
      [|apply nth_error_None in Hp; lia].
    destruct (Hpt i p Hp) as (pk & [_ Hub] & Hnth).
    rewrite Hi in Hnth. injection Hnth as ->. cbn [drawdown].
    apply drawdown_of_nonpos. apply (Hub i); [lia|].
    unfold es. rewrite nth_error_map, Hp. reflexivity.
  - destruct (Hpt 0%nat p0 eq_refl) as (pk & [(j & Hj & Hatt) _] & Hnth).
    eexists. split; [exact Hnth|]. cbn [drawdown].
    assert (j = 0%nat) by lia. subst j. cbn in Hatt. injection Hatt as <-.
    apply drawdown_of_self.
Qed.

Lemma getBacktest_drawdown_witness :
  List.Forall (fun o => drawdown o <= 0)
    (derive_equity_curve
       [mkRawPoint "d1" 100 100; mkRawPoint "d2" 120 20; mkRawPoint "d3" 90 20]).
Proof.
  apply List.Forall_forall.
  apply (getBacktest_drawdown
           [mkRawPoint "d1" 100 100; mkRawPoint "d2" 120 20; mkRawPoint "d3" 90 20]).
  discriminate.
Defined.

Example derive_equity_curve_example :
  map drawdown
    (derive_equity_curve
       [mkRawPoint "d1" 100 100; mkRawPoint "d2" 120 20; mkRawPoint "d3" 90 20])
  = [0 / 100; 0 / 120; (90 - 120) / 120].
Proof. reflexivity. Qed.

(** ** Mean-reversion strategy *)

Section MeanReversionFacts.

Variable sqrtQ : Q -> Q.
Variable params : Strategy.Parameters.
Variable portfolio : Portfolio.

Local Abbreviation step := (Strategy.on_bar_symbol sqrtQ params portfolio).

Lemma get_state_lookup (st1 st2 : gmap string Strategy.SymbolState) (s : string) :
  st1 !! s = st2 !! s ->
  fst (Strategy._get_state st1 s) = fst (Strategy._get_state st2 s).
Proof.
  intro H. unfold Strategy._get_state. rewrite H.
  destruct (st2 !! s); reflexivity.
Qed.

Lemma history_with_lookup (st1 st2 : gmap string Strategy.SymbolState)
    (s : string) (close : Q) :
  st1 !! s = st2 !! s ->
  Strategy.history_with st1 s close = Strategy.history_with st2 s close.
Proof.
  intro H. unfold Strategy.history_with. rewrite (get_state_lookup _ _ _ H).
  reflexivity.
Qed.

Lemma get_state_other (st : gmap string Strategy.SymbolState) (sym s : string) :
  sym <> s -> snd (Strategy._get_state st sym) !! s = st !! s.
Proof.
  intro H. unfold Strategy._get_state.
  destruct (st !! sym); cbn [snd]; [reflexivity|].
  apply lookup_insert_ne. exact H.
Qed.

(** One iteration appends [emitted] for its symbol and touches the state of
    no other symbol. *)
Lemma on_bar_symbol_emitted (orders : list Strategy.PendingOrder)
    (st : gmap string Strategy.SymbolState) (sym : string) (bar : Strategy.Bar) :
  fst (step (orders, st) (sym, bar))
  = orders ++ emitted sqrtQ params portfolio
                (Strategy.history_with st sym (Strategy.bar_close bar))
                sym (Strategy.bar_close bar)
  /\ forall s, sym <> s -> snd (step (orders, st) (sym, bar)) !! s = st !! s.
Proof.
  unfold Strategy.on_bar_symbol, emitted, Strategy.history_with.
  destruct (Strategy._get_state st sym) as [state st1] eqn:Hgs.
  assert (Hother : forall s, sym <> s -> st1 !! s = st !! s).
  { intros s Hs. rewrite <- (get_state_other st sym s Hs), Hgs. reflexivity. }
  cbn [fst snd Strategy.price_history].
  set (hist := Strategy.price_history state ++ [Strategy.bar_close bar]).
  assert (Hst : forall (o : list Strategy.PendingOrder) s, sym <> s ->
            snd (o, <[sym := {| Strategy.price_history := hist;
                                Strategy.volume_history := Strategy.volume_history state |}]> st1) !! s
            = st !! s).
  { intros o s Hs. cbn [snd]. rewrite lookup_insert_ne by exact Hs. apply Hother, Hs. }
  destruct (Z.of_nat (length hist) <? Strategy.lookback_period params)%Z.
  { split; [cbn; rewrite app_nil_r; reflexivity | apply Hst]. }
  destruct (Strategy.np_mean _) as [mean|];
    [|split; [cbn; rewrite app_nil_r; reflexivity | apply Hst]].
  destruct (Strategy.np_std _ _) as [std|];
    [|split; [cbn; rewrite app_nil_r; reflexivity | apply Hst]].
  destruct (Qeq_bool std 0).
  { split; [cbn; rewrite app_nil_r; reflexivity | apply Hst]. }
  destruct (_ && _).
  { split; [reflexivity | apply Hst]. }
  destruct (_ && _).
  { split; [reflexivity | apply Hst]. }
  split; [cbn; rewrite app_nil_r; reflexivity | apply Hst].
Qed.

Lemma emitted_symbol (history : list Q) (sym : string) (close : Q) :
  forall o, In o (emitted sqrtQ params portfolio history sym close) ->
            Strategy.symbol o = sym.
Proof.
  intros o. unfold emitted.
  repeat match goal with
         | |- context [match ?c with _ => _ end] => destruct c
         end;
    cbn; intros [<-|[]] || intros []; reflexivity.
Qed.

(** Bars of other symbols leave the state of [s] alone and emit nothing for
    [s]. *)
Lemma fold_other (bars : list (string * Strategy.Bar)) (s : string) :
  ~ In s (map fst bars) ->
  forall acc,
    snd (fold_left step bars acc) !! s = snd acc !! s
    /\ exists new,
         fst (fold_left step bars acc) = fst acc ++ new
         /\ forall o, In o new -> Strategy.symbol o <> s.
Proof.
  induction bars as [|[sym bar] bars IH]; intros Hnot acc; cbn [fold_left].
  - split; [reflexivity|]. exists []. split; [rewrite app_nil_r; reflexivity|].
    intros o [].
  - cbn [map fst] in Hnot.
    assert (Hs : sym <> s) by (intro; apply Hnot; left; assumption).
    assert (Hrest : ~ In s (map fst bars)) by (intro; apply Hnot; right; assumption).
    destruct acc as [orders st].
    destruct (on_bar_symbol_emitted orders st sym bar) as [Ho Hst].
    destruct (IH Hrest (step (orders, st) (sym, bar))) as [IH1 (new & IH2 & IH3)].
    split.
    + rewrite IH1. apply Hst, Hs.
    + eexists. split.
      * rewrite IH2, Ho, <- app_assoc. reflexivity.
      * intros o Ho'. apply in_app_or in Ho'. destruct Ho' as [Ho'|Ho'].
        -- apply emitted_symbol in Ho'. congruence.
        -- apply IH3, Ho'.
Qed.

Lemma orders_for_none (s : string) (l : list Strategy.PendingOrder) :
  (forall o, In o l -> Strategy.symbol o <> s) -> orders_for s l = [].
Proof.
  induction l as [|o l IH]; intro H; [reflexivity|].
  unfold orders_for. cbn [List.filter].
  rewrite bool_decide_eq_false_2 by (apply H; left; reflexivity).
  apply IH. intros o' Ho'. apply H. right. exact Ho'.
Qed.

Lemma orders_for_all (s : string) (l : list Strategy.PendingOrder) :
  (forall o, In o l -> Strategy.symbol o = s) -> orders_for s l = l.
Proof.
  induction l as [|o l IH]; intro H; [reflexivity|].
  unfold orders_for. cbn [List.filter].
  rewrite bool_decide_eq_true_2 by (apply H; left; reflexivity).
  f_equal. apply IH. intros o' Ho'. apply H. right. exact Ho'.
Qed.

Lemma orders_for_app (s : string) (l1 l2 : list Strategy.PendingOrder) :
  orders_for s (l1 ++ l2) = orders_for s l1 ++ orders_for s l2.
Proof. apply List.filter_app. Qed.

(** The orders [on_bar] returns for a symbol are those its own iteration
    emits, computed from the history the call started with. *)
Lemma on_bar_orders_for (st : gmap string Strategy.SymbolState)
    (bars : list (string * Strategy.Bar)) (s : string) (bar : Strategy.Bar) :
  List.NoDup (map fst bars) ->
  In (s, bar) bars ->
  orders_for s (fst (Strategy.on_bar sqrtQ params st bars portfolio))
  = emitted sqrtQ params portfolio
      (Strategy.history_with st s (Strategy.bar_close bar))
      s (Strategy.bar_close bar).
Proof.
  intros Hnd Hin.
  apply in_split in Hin. destruct Hin as (pre & post & ->).
  rewrite map_app in Hnd. cbn [map fst] in Hnd.
  assert (Hnot := NoDup_remove_2 _ _ _ Hnd).
  assert (Hpre : ~ In s (map fst pre)) by (intro; apply Hnot, in_or_app; left; assumption).
  assert (Hpost : ~ In s (map fst post)) by (intro; apply Hnot, in_or_app; right; assumption).
  unfold Strategy.on_bar. rewrite fold_left_app. cbn [fold_left].
  assert (Hfo := fold_other). assert (Hem := on_bar_symbol_emitted).
  destruct (Hfo pre s Hpre ([], st)) as [Hst (new1 & Ho1 & Hn1)].
  destruct (fold_left _ pre ([], st)) as [orders1 st1].
  cbn [fst snd] in Hst, Ho1. cbn [app] in Ho1. subst orders1.
  destruct (Hem new1 st1 s bar) as [Ho2 _].
  destruct (Hfo post s Hpost
              (Strategy.on_bar_symbol sqrtQ params portfolio (new1, st1) (s, bar)))
    as [_ (new3 & Ho3 & Hn3)].
  rewrite Ho3, Ho2, (history_with_lookup st1 st s _ Hst).
  rewrite !orders_for_app.
  rewrite (orders_for_none s new1 Hn1), (orders_for_none s new3 Hn3).
  rewrite app_nil_r. cbn [app].
  apply orders_for_all. apply emitted_symbol.
Qed.

End MeanReversionFacts.

Example on_bar_sell_example :
  map (fun o => (Strategy.symbol o, Strategy.side o, Strategy.weight o))
    (fst (Strategy.on_bar Qsqrt_approx sample_params sample_state
            [("AAA"%string, sample_bar 11)]
            {| cash := 0;
               positions := {[ "AAA"%string := mkPosition "AAA" 5 10 55 ]} |}))
  = [("AAA"%string, SELL, 1)].
Proof. vm_compute. reflexivity. Qed.

(** ** Return-based metrics *)

Lemma iloc_empty : iloc_last [] = Raise IndexError /\ iloc_first [] = Raise IndexError.
Proof. split; reflexivity. Qed.

(** C6. On an empty equity curve [annual_return] does not return 0: the
    total return is computed before the guard [years <= 0], and taking
    [iloc[-1]] of an empty Series raises IndexError (ZeroDivisionError
    comes first when [trading_days] is 0). *)
Theorem annual_return_empty_raises (fpow : fval -> fval -> fval) (trading_days : Z) :
  annual_return fpow [] trading_days
  = Raise (if (trading_days =? 0)%Z then ZeroDivisionError else IndexError).
Proof.
  unfold annual_return. destruct (trading_days =? 0)%Z; reflexivity.
Qed.

(** For a curve of [n >= 1] points and a positive number of trading days,
    [annual_return] is (1 + total_return)^(trading_days / n) - 1. *)
Lemma annual_return_nonempty (fpow : fval -> fval -> fval)
    (equity_curve : list Q) (trading_days : Z) :
  equity_curve <> [] ->
  (0 < trading_days)%Z ->
  exists total_ret exponent,
    total_return equity_curve = Ok total_ret
    /\ exponent == inject_Z trading_days / inject_Z (Z.of_nat (length equity_curve))
    /\ annual_return fpow equity_curve trading_days
       = Ok (fsub (fpow (fadd (Fin 1) total_ret) (Fin exponent)) (Fin 1)).
Proof.
  intros Hne Htd.
  destruct equity_curve as [|e0 rest]; [congruence|].
  set (ec := e0 :: rest).
  set (n := Z.of_nat (length ec)).
  assert (Hn : (0 < n)%Z) by (unfold n, ec; cbn [length]; lia).
  assert (Hnq : 0 < inject_Z n).
  { change 0 with (inject_Z 0). rewrite <- Zlt_Qlt. exact Hn. }
  assert (Htq : 0 < inject_Z trading_days).
  { change 0 with (inject_Z 0). rewrite <- Zlt_Qlt. exact Htd. }
  eexists. exists (1 / (inject_Z n / inject_Z trading_days)).
  split; [reflexivity|]. split.
  - field. split; lra.
  - unfold annual_return. fold n.
    destruct (trading_days =? 0)%Z eqn:E; [apply Z.eqb_eq in E; lia|].
    cbn [total_return ec iloc_last iloc_first bind].
    destruct (Qle_bool (inject_Z n / inject_Z trading_days) 0) eqn:Ey; [|reflexivity].
    apply Qle_bool_iff in Ey.
    assert (0 < inject_Z n / inject_Z trading_days).
    { apply Qlt_shift_div_l; lra. }
    lra.
Qed.

Lemma fin_zero_feq (v : fval) : fin_zero v -> feq v (Fin 0) = true.
Proof.
  destruct v; cbn; try contradiction. intro H. apply Qeq_bool_iff. exact H.
Qed.

Lemma fin_zero_not_nan (v : fval) : fin_zero v -> is_nan v = false.
Proof. destruct v; cbn; try contradiction. reflexivity. Qed.

Lemma dropna_fin_zero (l : list fval) : Forall fin_zero l -> dropna l = l.
Proof.
  induction 1 as [|v l Hv _ IH]; [reflexivity|].
  unfold dropna in *. cbn [List.filter].
  rewrite (fin_zero_not_nan v Hv). cbn [negb]. f_equal. exact IH.
Qed.

Lemma fold_fadd_fin_zero (l : list fval) :
  Forall fin_zero l ->
  forall a, fin_zero a -> fin_zero (fold_left fadd l a).
Proof.
  induction 1 as [|v l Hv _ IH]; intros a Ha; [exact Ha|].
  cbn [fold_left]. apply IH.
  destruct a, v; cbn in *; try contradiction. lra.
Qed.

Lemma fsum_fin_zero (l : list fval) : Forall fin_zero l -> fin_zero (fsum l).
Proof.
  intro H. apply fold_fadd_fin_zero; [exact H | reflexivity].
Qed.

Lemma fdiv_fin_zero (v : fval) (d : Q) :
  fin_zero v -> ~ d == 0 -> fin_zero (fdiv v (Fin d)).
Proof.
  destruct v; cbn; try contradiction. intros Hq Hd.
  destruct (Qeq_bool d 0) eqn:E; [apply Qeq_bool_iff in E; contradiction|].
  cbn. rewrite Hq. field. exact Hd.
Qed.

Lemma pct_change_from_const (c : Q) (l : list Q) :
  0 < c ->
  Forall (fun x => x == c) l ->
  forall prev, prev == c -> Forall fin_zero (pct_change_from prev l).
Proof.
  intros Hc. induction 1 as [|x l Hx _ IH]; intros prev Hprev; cbn [pct_change_from].
  - constructor.
  - constructor; [|apply IH; exact Hx].
    cbn. destruct (Qeq_bool prev 0) eqn:E; [apply Qeq_bool_iff in E; lra|].
    cbn. rewrite Hx, Hprev. field. lra.
Qed.

Lemma calculate_returns_const (c : Q) (equity_curve : list Q) :
  0 < c ->
  Forall (fun x => x == c) equity_curve ->
  Forall fin_zero (calculate_returns equity_curve)
  /\ length (calculate_returns equity_curve) = length equity_curve.
Proof.
  intros Hc H. unfold calculate_returns, fillna, pct_change.
  destruct H as [|x l Hx Hl]; [split; [constructor | reflexivity]|].
  split.
  - cbn [map is_nan]. constructor; [cbn; reflexivity|].
    assert (Hz := pct_change_from_const c l Hc Hl x Hx).
    induction Hz as [|v vs Hv _ IH]; [constructor|].
    cbn [map]. constructor; [|exact IH].
    rewrite (fin_zero_not_nan v Hv). exact Hv.
  - rewrite length_map. cbn [length]. f_equal.
    clear. revert x. induction l as [|y l IH]; intro x; [reflexivity|].
    cbn. f_equal. apply IH.
Qed.

Section FlatCurve.

Variable sqrtQ : Q -> Q.
Hypothesis sqrtQ_zero : forall x, x == 0 -> sqrtQ x == 0.

Lemma np_sqrt_fin_zero (v : fval) : fin_zero v -> fin_zero (np_sqrt sqrtQ v).
Proof.
  destruct v; cbn; try contradiction. intro Hq.
  destruct (Qlt_bool q 0) eqn:E; [apply Qlt_bool_iff in E; lra|].
  cbn. apply sqrtQ_zero, Hq.
Qed.

Lemma pd_std_fin_zero (l : list fval) :
  Forall fin_zero l -> (2 <= length l)%nat -> fin_zero (pd_std sqrtQ l).
Proof.
  intros Hl Hlen. unfold pd_std. rewrite (dropna_fin_zero l Hl).
  destruct (length l <=? 1)%nat eqn:E; [apply Nat.leb_le in E; lia|].
  set (n := length l) in *.
  assert (Hn : ~ inject_Z (Z.of_nat n) == 0).
  { change 0 with (inject_Z 0). rewrite inject_Z_injective. lia. }
  assert (Hn1 : ~ inject_Z (Z.of_nat n - 1) == 0).
  { change 0 with (inject_Z 0). rewrite inject_Z_injective. lia. }
  set (mean := fdiv (fsum l) (Fin (inject_Z (Z.of_nat n)))).
  assert (Hmean : fin_zero mean).
  { apply fdiv_fin_zero; [apply fsum_fin_zero, Hl | exact Hn]. }
  apply np_sqrt_fin_zero, fdiv_fin_zero; [|exact Hn1].
  apply fsum_fin_zero.
  generalize dependent mean. intros mean Hmean. clear -Hl Hmean.
  induction Hl as [|v l Hv _ IH]; [constructor|].
  cbn [map]. constructor; [|exact IH].
  destruct v, mean; cbn in *; try contradiction. nra.
Qed.

(** X26. On a constant equity curve of positive value with at least two
    points, and with [trading_days] non-zero, [sharpe_ratio] returns 0
    because the standard deviation of the returns is 0; on a constant curve
    of positive value of any length [sortino_ratio] returns 0 because no
    return is negative. *)
Theorem flat_curve_ratios (c : Q) (equity_curve : list Q)
    (risk_free_rate : Q) (trading_days : Z) :
  0 < c ->
  Forall (fun x => x == c) equity_curve ->
  trading_days <> 0%Z ->
  ((2 <= length equity_curve)%nat ->
     fin_zero (pd_std sqrtQ (calculate_returns equity_curve))
     /\ sharpe_ratio sqrtQ equity_curve risk_free_rate trading_days = Ok (Fin 0))
  /\ List.filter (fun r => flt r (Fin 0)) (calculate_returns equity_curve) = []
  /\ sortino_ratio sqrtQ equity_curve risk_free_rate trading_days = Ok (Fin 0).
Proof.
  intros Hc Hflat Htd.
  destruct (calculate_returns_const c equity_curve Hc Hflat) as [Hz Hlen].
  apply Z.eqb_neq in Htd.
  assert (Hdown : List.filter (fun r => flt r (Fin 0)) (calculate_returns equity_curve) = []).
  { clear Hlen. induction Hz as [|v l Hv _ IH]; [reflexivity|].
    cbn [List.filter].
    destruct v; cbn in Hv; try contradiction.
    cbn [flt]. destruct (Qlt_bool q 0) eqn:E; [apply Qlt_bool_iff in E; lra|].
    exact IH. }
  split; [|split].
  - intro Hn.
    assert (Hstd : fin_zero (pd_std sqrtQ (calculate_returns equity_curve))).
    { apply pd_std_fin_zero; [exact Hz | lia]. }
    split; [exact Hstd|].
    unfold sharpe_ratio. rewrite Htd.
    rewrite (fin_zero_feq _ Hstd). reflexivity.
  - exact Hdown.
  - unfold sortino_ratio. rewrite Htd, Hdown. reflexivity.
Qed.

End FlatCurve.

Lemma Qsqrt_approx_zero (x : Q) : x == 0 -> Qsqrt_approx x == 0.
Proof.
  intro H. unfold Qsqrt_approx.
  assert (Hn : Qnum x = 0%Z).
  { unfold Qeq in H. cbn in H. lia. }
  rewrite Hn. reflexivity.
Qed.

Lemma flat_curve_ratios_witness :
  sharpe_ratio Qsqrt_approx [100; 100; 100] (2 # 100) 252 = Ok (Fin 0)
  /\ sortino_ratio Qsqrt_approx [100; 100; 100] (2 # 100) 252 = Ok (Fin 0).
Proof.
  destruct (flat_curve_ratios Qsqrt_approx Qsqrt_approx_zero 100 [100; 100; 100]
              (2 # 100) 252) as (Hsharpe & _ & Hsortino).
  - reflexivity.
  - repeat constructor.
  - discriminate.
  - split; [|exact Hsortino].
    apply Hsharpe. cbn. lia.
Defined.

(** C7. A one-point equity curve is constant, but the sample standard
    deviation of its single return is NaN, not 0, so the guard
    [returns.std() == 0] does not fire and [sharpe_ratio] returns NaN where
    a flat curve should give 0. *)
Lemma sharpe_single_point_nan :
  Forall (fun x => x == 100) [100]
  /\ sharpe_ratio Qsqrt_approx [100] (2 # 100) 252 = Ok NaN
  /\ sharpe_ratio Qsqrt_approx [100] (2 # 100) 252 <> Ok (Fin 0).
Proof.
  split; [repeat constructor|]. split; [reflexivity | discriminate].
Qed.

(** * Further properties of the modelled code *)

(** ** Broker: fill price, commission, quantity, validation *)

Lemma calculate_commission_Qmax (self : Broker.t) (fill_price : Q) (quantity : Z) :
  Broker.calculate_commission self fill_price quantity
  == Qmax (fill_price * inject_Z quantity * commission_rate (Broker.config self))
          (min_commission (Broker.config self)).
Proof. unfold Broker.calculate_commission. apply py_max_Qmax. Qed.

(** X1. Slippage works against the trader: with a non-negative slippage and
    a non-negative open, a sell fills at or below the open and a buy at or
    above it, and the two fill prices differ by twice open*slippage. *)
Theorem fill_price_against_trader (self : Broker.t) (next_open : Q) :
  0 <= Broker.get_slippage self ->
  0 <= next_open ->
  Broker.calculate_fill_price self next_open SELL <= next_open
  /\ next_open <= Broker.calculate_fill_price self next_open BUY
  /\ Broker.calculate_fill_price self next_open BUY
     - Broker.calculate_fill_price self next_open SELL
     == 2 * next_open * Broker.get_slippage self.
Proof.
  intros Hs Ho. unfold Broker.calculate_fill_price.
  set (s := Broker.get_slippage self) in *.
  repeat split; nra.
Qed.

Lemma fill_price_against_trader_witness :
  Broker.calculate_fill_price (Broker.mk KR D1) 50000 SELL <= 50000
  /\ 50000 <= Broker.calculate_fill_price (Broker.mk KR D1) 50000 BUY.
Proof.
  destruct (fill_price_against_trader (Broker.mk KR D1) 50000) as (H1 & H2 & _).
  - vm_compute. discriminate.
  - vm_compute. discriminate.
  - split; assumption.
Defined.

(** X2. The commission is monotone in the quantity: with a non-negative
    fill price and commission rate, a larger order never pays less. *)
Theorem commission_monotone (self : Broker.t) (fill_price : Q) (q1 q2 : Z) :
  0 <= fill_price ->
  0 <= commission_rate (Broker.config self) ->
  (q1 <= q2)%Z ->
  Broker.calculate_commission self fill_price q1
  <= Broker.calculate_commission self fill_price q2.
Proof.
  intros Hp Hr Hq.
  rewrite (calculate_commission_Qmax self fill_price q1).
  rewrite (calculate_commission_Qmax self fill_price q2).
  apply Q.max_le_compat_r.
  assert (Hq' : inject_Z q1 <= inject_Z q2) by (rewrite <- Zle_Qle; exact Hq).
  set (a := inject_Z q1) in *. set (b := inject_Z q2) in *.
  set (r := commission_rate (Broker.config self)) in *.
  assert (H1 : 0 <= fill_price * r) by (apply Qmult_le_0_compat; lra).
  assert (H2 : 0 <= (fill_price * r) * (b - a)) by (apply Qmult_le_0_compat; lra).
  lra.
Qed.

Lemma commission_monotone_witness :
  Broker.calculate_commission (Broker.mk US D1) 150 2
  <= Broker.calculate_commission (Broker.mk US D1) 150 40.
Proof.
  apply (commission_monotone (Broker.mk US D1) 150 2 40).
  - vm_compute. discriminate.
  - vm_compute. discriminate.
  - lia.
Defined.

(** X3. Under the KR configuration, which has no minimum commission, an
    order with non-negative price and quantity pays exactly
    fill_price * quantity * 0.00015. *)
Theorem commission_KR_proportional (tf : TimeframeType) (fill_price : Q) (quantity : Z) :
  0 <= fill_price ->
  (0 <= quantity)%Z ->
  Broker.calculate_commission (Broker.mk KR tf) fill_price quantity
  == fill_price * inject_Z quantity * (15 # 100000).
Proof.
  intros Hp Hq.
  rewrite calculate_commission_Qmax. cbn [Broker.config commission_rate min_commission KR].
  apply Q.max_l.
  assert (Hq' : 0 <= inject_Z quantity).
  { change 0 with (inject_Z 0). rewrite <- Zle_Qle. exact Hq. }
  assert (0 <= fill_price * inject_Z quantity) by (apply Qmult_le_0_compat; assumption).
  lra.
Qed.

Lemma commission_KR_proportional_witness :
  Broker.calculate_commission (Broker.mk KR D1) 50050 59
  == 50050 * inject_Z 59 * (15 # 100000).
Proof.
  apply (commission_KR_proportional D1 50050 59).
  - vm_compute. discriminate.
  - lia.
Defined.

Lemma calculate_quantity_cases (self : Broker.t)
    (portfolio_equity weight fill_price current_position_value : Q) :
  let target :=
    Broker.clamped_target portfolio_equity weight current_position_value in
  let moa := min_order_amount (Broker.config self) in
  (target < moa
   /\ Broker.calculate_quantity self portfolio_equity weight fill_price
        current_position_value = Ok 0%Z)
  \/ (moa <= target /\ fill_price == 0
      /\ Broker.calculate_quantity self portfolio_equity weight fill_price
           current_position_value = Raise ZeroDivisionError)
  \/ (moa <= target /\ ~ fill_price == 0
      /\ Broker.calculate_quantity self portfolio_equity weight fill_price
           current_position_value
         = Ok (Z.max (Qfloor (target / fill_price)) 0)).
Proof.
  intros target moa. unfold Broker.calculate_quantity. fold target moa.
  destruct (Qlt_bool target moa) eqn:E1.
  - left. apply Qlt_bool_iff in E1. split; [exact E1 | reflexivity].
  - apply Qlt_bool_false_iff in E1. right.
    destruct (Qeq_bool fill_price 0) eqn:E2.
    + left. apply Qeq_bool_iff in E2. repeat split; assumption.
    + right. repeat split; try assumption.
      intro H. apply Qeq_bool_iff in H. congruence.
Qed.

(** X7. Once the value already held in a symbol has reached 40% of equity,
    and the minimum order amount is positive, [calculate_quantity] returns 0
    whatever the weight and the fill price. *)
Theorem calculate_quantity_zero_at_cap (self : Broker.t)
    (portfolio_equity weight fill_price current_position_value : Q) :
  0 < min_order_amount (Broker.config self) ->
  (40 # 100) * portfolio_equity <= current_position_value ->
  Broker.calculate_quantity self portfolio_equity weight fill_price
    current_position_value = Ok 0%Z.
Proof.
  intros Hmoa Hcap.
  assert (Ht := clamped_target_Qmin portfolio_equity weight current_position_value).
  assert (H2 := Q.le_min_r (portfolio_equity * weight)
                  (portfolio_equity * (40 # 100) - current_position_value)).
  destruct (calculate_quantity_cases self portfolio_equity weight fill_price
              current_position_value) as [[_ H]|[(H1 & _)|(H1 & _)]];
    [exact H | rewrite Ht in H1; lra | rewrite Ht in H1; lra].
Qed.

Lemma calculate_quantity_zero_at_cap_witness :
  Broker.calculate_quantity (Broker.mk KR H1) 10000000 (3 # 10) 50000 4000000 = Ok 0%Z.
Proof.
  apply (calculate_quantity_zero_at_cap (Broker.mk KR H1) 10000000 (3 # 10) 50000 4000000).
  - reflexivity.
  - vm_compute. discriminate.
Defined.

(** ** Performance metrics: returns *)

Lemma pct_change_from_nth (l : list Q) :
  forall prev0 i prev cur,
    nth_error (prev0 :: l) i = Some prev ->
    nth_error (prev0 :: l) (S i) = Some cur ->
    nth_error (pct_change_from prev0 l) i
    = Some (fsub (fdiv (Fin cur) (Fin prev)) (Fin 1)).
Proof.
  induction l as [|x l IH]; intros prev0 i prev cur Hp Hc.
  - destruct i; discriminate.
  - destruct i as [|i].
    + cbn in Hp, Hc. injection Hp as <-. injection Hc as <-. reflexivity.
    + cbn [nth_error] in Hp, Hc. cbn [pct_change_from nth_error].
      apply (IH x i prev cur); assumption.
Qed.

Lemma pct_change_from_length (l : list Q) :
  forall prev, length (pct_change_from prev l) = length l.
Proof.
  induction l as [|x l IH]; intro prev; [reflexivity|].
  cbn. f_equal. apply IH.
Qed.

(** X9. [calculate_returns] keeps the length of the curve and starts with
    the return 0.  The return of a step from a non-zero value [prev] to
    [cur] is cur/prev - 1; a step from zero to zero yields 0 (the NaN is
    filled), and a step from zero to a positive value yields +infinity
    rather than an error. *)
Theorem calculate_returns_steps (equity_curve : list Q) :
  length (calculate_returns equity_curve) = length equity_curve
  /\ (equity_curve <> [] ->
      nth_error (calculate_returns equity_curve) 0 = Some (Fin 0))
  /\ (forall i prev cur,
        nth_error equity_curve i = Some prev ->
        nth_error equity_curve (S i) = Some cur ->
        (~ prev == 0 ->
           nth_error (calculate_returns equity_curve) (S i)
           = Some (Fin (cur / prev - 1)))
        /\ (prev == 0 -> cur == 0 ->
           nth_error (calculate_returns equity_curve) (S i) = Some (Fin 0))
        /\ (prev == 0 -> 0 < cur ->
           nth_error (calculate_returns equity_curve) (S i) = Some PInf)).
Proof.
  unfold calculate_returns, fillna, pct_change.
  destruct equity_curve as [|e0 l].
  { split; [reflexivity|]. split; [congruence|].
    intros i prev cur H. destruct i; discriminate. }
  split; [|split].
  - rewrite length_map. cbn [length]. rewrite pct_change_from_length. reflexivity.
  - intros _. reflexivity.
  - intros i prev cur Hp Hc.
    assert (Hn := pct_change_from_nth l e0 i prev cur Hp Hc).
    cbn [map nth_error]. rewrite nth_error_map, Hn. cbn [option_map].
    cbn [fdiv]. repeat split.
    + intro Hnz. destruct (Qeq_bool prev 0) eqn:E;
        [apply Qeq_bool_iff in E; contradiction|]. reflexivity.
    + intros Hz Hcz. apply Qeq_bool_iff in Hz. rewrite Hz.
      unfold signed_inf. apply Qeq_bool_iff in Hcz. rewrite Hcz. reflexivity.
    + intros Hz Hpos. apply Qeq_bool_iff in Hz. rewrite Hz.
      unfold signed_inf.
      destruct (Qeq_bool cur 0) eqn:E; [apply Qeq_bool_iff in E; lra|].
      apply Qlt_bool_iff in Hpos. rewrite Hpos. reflexivity.
Qed.

Lemma calculate_returns_steps_witness :
  nth_error (calculate_returns [100; 110; 0; 0; 5]) 1 = Some (Fin (110 / 100 - 1))
  /\ nth_error (calculate_returns [100; 110; 0; 0; 5]) 3 = Some (Fin 0)
  /\ nth_error (calculate_returns [100; 110; 0; 0; 5]) 4 = Some PInf.
Proof.
  destruct (calculate_returns_steps [100; 110; 0; 0; 5]) as (_ & _ & H).
  split; [|split].
  - apply (H 0%nat 100 110); [reflexivity | reflexivity | discriminate].
  - apply (H 2%nat 0 0); reflexivity.
  - apply (H 3%nat 0 5); reflexivity.
Defined.

Lemma Qprod_cons (x : Q) (l : list Q) : Qprod (x :: l) = x * Qprod l.
Proof. reflexivity. Qed.

Lemma pct_change_from_compound (l : list Q) :
  Forall (fun x => ~ x == 0) l ->
  forall prev, ~ prev == 0 ->
  exists rs,
    pct_change_from prev l = map Fin rs
    /\ prev * Qprod (map (fun r => 1 + r) rs) == List.last l prev.
Proof.
  induction 1 as [|x l Hx Hl IH]; intros prev Hprev.
  - exists []. split; [reflexivity|]. cbn. ring.
  - destruct (IH x Hx) as (rs & Hrs & Hprod).
    exists ((x / prev - 1) :: rs). split.
    + cbn [pct_change_from map]. rewrite Hrs. f_equal.
      cbn [fdiv]. destruct (Qeq_bool prev 0) eqn:E;
        [apply Qeq_bool_iff in E; contradiction|]. reflexivity.
    + cbn [map]. rewrite Qprod_cons.
      assert (Hl' : List.last (x :: l) prev = List.last l x).
      { clear. revert x. induction l as [|y l IHl]; intro x; [reflexivity|].
        cbn [List.last] in *. destruct l; [reflexivity|]. apply IHl. }
      rewrite Hl', <- Hprod. field. exact Hprev.
Qed.

(** X10. Returns compound to the total return: on a non-empty curve with no
    zero value every return is finite, [total_return] is last/first - 1, and
    the product of (1 + return) over the curve equals 1 + total_return. *)
Theorem returns_compound (equity_curve : list Q) :
  equity_curve <> [] ->
  Forall (fun x => ~ x == 0) equity_curve ->
  exists rs total_ret,
    calculate_returns equity_curve = map Fin rs
    /\ total_return equity_curve = Ok (Fin total_ret)
    /\ Qprod (map (fun r => 1 + r) rs) == 1 + total_ret.
Proof.
  intros Hne Hnz.
  destruct equity_curve as [|e0 l]; [congruence|].
  inversion Hnz as [|? ? He0 Hl]; subst.
  destruct (pct_change_from_compound l Hl e0 He0) as (rs & Hrs & Hprod).
  exists (0 :: rs), (List.last l e0 / e0 - 1).
  split; [|split].
  - unfold calculate_returns, fillna, pct_change. rewrite Hrs.
    cbn [map is_nan]. f_equal.
    rewrite map_map. apply map_ext. reflexivity.
  - unfold total_return. cbn [iloc_last iloc_first bind fdiv].
    destruct (Qeq_bool e0 0) eqn:E; [apply Qeq_bool_iff in E; contradiction|].
    reflexivity.
  - cbn [map]. rewrite Qprod_cons, <- Hprod. field. exact He0.
Qed.

Lemma returns_compound_witness :
  exists rs total_ret,
    calculate_returns [100; 110; 99] = map Fin rs
    /\ total_return [100; 110; 99] = Ok (Fin total_ret)
    /\ Qprod (map (fun r => 1 + r) rs) == 1 + total_ret.
Proof.
  apply (returns_compound [100; 110; 99]).
  - discriminate.
  - repeat constructor; discriminate.
Defined.

(** ** Performance metrics: drawdown *)

Lemma running_peak_unique (es : list Q) (i : nat) (a b : Q) :
  is_running_peak es i a -> is_running_peak es i b -> a == b.
Proof.
  intros [(ja & Hja & Ha) Hua] [(jb & Hjb & Hb) Hub].
  apply Qle_antisym; [apply (Hub ja a Hja Ha) | apply (Hua jb b Hjb Hb)].
Qed.

(** Every point [getBacktest] derives carries the drawdown of its equity
    against the running peak. *)
Lemma derive_points (data : list RawPoint) (i : nat) (p : RawPoint) :
  nth_error data i = Some p ->
  exists pk,
    is_running_peak (map raw_equity data) i pk
    /\ nth_error (derive_equity_curve data) i
       = Some {| date := timestamp p; equity := raw_equity p;
                 drawdown := drawdown_of (raw_equity p) pk |}.
Proof.
  intro Hp. destruct data as [|p0 data]; [destruct i; discriminate|].
  destruct (map_points_nth (p0 :: data) (raw_equity p0) i p Hp)
    as (pk & (Hle & Hatt & Hub) & Hnth).
  exists pk. split; [|exact Hnth].
  split; [|exact Hub].
  destruct Hatt as [->|Hatt]; [|exact Hatt].
  exists 0%nat. split; [lia | reflexivity].
Qed.

Lemma derive_in (data : list RawPoint) (o : EquityCurvePoint) :
  In o (derive_equity_curve data) ->
  exists i p pk,
    nth_error data i = Some p
    /\ is_running_peak (map raw_equity data) i pk
    /\ o = {| date := timestamp p; equity := raw_equity p;
              drawdown := drawdown_of (raw_equity p) pk |}.
Proof.
  intro Ho. apply In_nth_error in Ho. destruct Ho as [i Hi].
  assert (Hlen : length (derive_equity_curve data) = length data).
  { destruct data; [reflexivity | apply map_points_length]. }
  assert (Hlt : (i < length data)%nat).
  { rewrite <- Hlen. apply nth_error_Some. congruence. }
  destruct (nth_error data i) as [p|] eqn:Hp; [|apply nth_error_None in Hp; lia].
  destruct (derive_points data i p Hp) as (pk & Hpk & Hnth).
  exists i, p, pk. split; [exact Hp|]. split; [exact Hpk|].
  rewrite Hi in Hnth. injection Hnth as ->. reflexivity.
Qed.

Lemma running_peak_ge (es : list Q) (i : nat) (e pk : Q) :
  nth_error es i = Some e -> is_running_peak es i pk -> e <= pk.
Proof. intros He [_ Hub]. apply (Hub i e); [lia | exact He]. Qed.

Lemma running_peak_ge_first (e0 : Q) (es : list Q) (i : nat) (pk : Q) :
  is_running_peak (e0 :: es) i pk -> e0 <= pk.
Proof. intros [_ Hub]. apply (Hub 0%nat e0); [lia | reflexivity]. Qed.

(** On a curve that starts positive, the backend's drawdown series is the
    list of drawdowns the frontend derives. *)
Lemma drawdown_series_map_points (data : list RawPoint) :
  forall m, 0 < m ->
    drawdown_series (map raw_equity data)
      (expanding_max_from m (map raw_equity data))
    = map (fun o => Fin (drawdown o)) (map_points m data).
Proof.
  induction data as [|p data IH]; intros m Hm; [reflexivity|].
  set (m' := if Qlt_bool m (raw_equity p) then raw_equity p else m).
  assert (Hm' : 0 < m').
  { unfold m'. destruct (Qlt_bool m (raw_equity p)) eqn:E; [|exact Hm].
    apply Qlt_bool_iff in E. lra. }
  change (drawdown_series (map raw_equity (p :: data))
            (expanding_max_from m (map raw_equity (p :: data))))
    with (fdiv (Fin (raw_equity p - m')) (Fin m')
          :: drawdown_series (map raw_equity data)
               (expanding_max_from m' (map raw_equity data))).
  change (map_points m (p :: data))
    with ({| date := timestamp p; equity := raw_equity p;
             drawdown := if Qlt_bool 0 m' then (raw_equity p - m') / m' else 0 |}
          :: map_points m' data).
  cbn [map drawdown fdiv]. rewrite (IH m' Hm'). f_equal.
  destruct (Qeq_bool m' 0) eqn:E; [apply Qeq_bool_iff in E; lra|].
  apply Qlt_bool_iff in Hm'. rewrite Hm'. reflexivity.
Qed.

Lemma dropna_map_Fin (qs : list Q) : dropna (map Fin qs) = map Fin qs.
Proof.
  unfold dropna. induction qs as [|q qs IH]; [reflexivity|].
  cbn. f_equal. exact IH.
Qed.

Lemma fold_min_Fin (qs : list Q) :
  forall q0,
  exists m,
    fold_left (fun m y => if flt y m then y else m) (map Fin qs) (Fin q0) = Fin m
    /\ In m (q0 :: qs)
    /\ forall q, In q (q0 :: qs) -> m <= q.
Proof.
  induction qs as [|q qs IH]; intro q0.
  - exists q0. split; [reflexivity|]. split; [left; reflexivity|].
    intros q [<-|[]]. lra.
  - cbn [map fold_left flt].
    destruct (Qlt_bool q q0) eqn:E;
      [apply Qlt_bool_iff in E | apply Qlt_bool_false_iff in E].
    + destruct (IH q) as (m & Hm & Hin & Hle).
      exists m. split; [exact Hm|]. split.
      * right. exact Hin.
      * intros x [<-|Hx]; [|apply Hle, Hx].
        assert (m <= q) by (apply Hle; left; reflexivity). lra.
    + destruct (IH q0) as (m & Hm & Hin & Hle).
      exists m. split; [exact Hm|]. split.
      * destruct Hin as [<-|Hin]; [left; reflexivity | right; right; exact Hin].
      * intros x [<-|[<-|Hx]].
        -- apply Hle. left. reflexivity.
        -- assert (m <= q0) by (apply Hle; left; reflexivity). lra.
        -- apply Hle. right. exact Hx.
Qed.

Lemma pd_min_map_Fin (qs : list Q) :
  qs <> [] ->
  exists m, pd_min (map Fin qs) = Fin m /\ In m qs /\ forall q, In q qs -> m <= q.
Proof.
  intro Hne. unfold pd_min. rewrite dropna_map_Fin.
  destruct qs as [|q0 qs]; [congruence|].
  cbn [map]. apply fold_min_Fin.
Qed.

Lemma max_drawdown_derived (data : list RawPoint) (p0 : RawPoint) :
  nth_error data 0 = Some p0 ->
  0 < raw_equity p0 ->
  exists m,
    max_drawdown (map raw_equity data) = Fin (Qabs m)
    /\ In m (map drawdown (derive_equity_curve data))
    /\ forall q, In q (map drawdown (derive_equity_curve data)) -> m <= q.
Proof.
  intros H0 Hpos. destruct data as [|p data]; [discriminate|].
  injection H0 as ->.
  unfold max_drawdown, expanding_max. cbn [map].
  change (raw_equity p0 :: map raw_equity data) with (map raw_equity (p0 :: data)).
  rewrite (drawdown_series_map_points (p0 :: data) (raw_equity p0) Hpos).
  change (map_points (raw_equity p0) (p0 :: data)) with (derive_equity_curve (p0 :: data)).
  rewrite <- (map_map drawdown Fin).
  destruct (pd_min_map_Fin (map drawdown (derive_equity_curve (p0 :: data))))
    as (m & Hm & Hin & Hle).
  { cbn. discriminate. }
  exists m. rewrite Hm. repeat split; assumption.
Qed.

(** X11. Backend and frontend agree on drawdown: for an equity curve whose
    first value is positive, [max_drawdown] of the backend is the largest
    magnitude among the drawdowns [getBacktest] derives in the frontend --
    it bounds the magnitude of every derived drawdown and some derived point
    attains it. *)
Theorem max_drawdown_matches_frontend (data : list RawPoint) (p0 : RawPoint) :
  nth_error data 0 = Some p0 ->
  0 < raw_equity p0 ->
  exists d,
    max_drawdown (map raw_equity data) = Fin d
    /\ (forall o, In o (derive_equity_curve data) -> - drawdown o <= d)
    /\ (exists o, In o (derive_equity_curve data) /\ - drawdown o == d).
Proof.
  intros H0 Hpos.
  destruct (max_drawdown_derived data p0 H0 Hpos) as (m & Hmd & Hin & Hle).
  assert (Hnonpos : forall o, In o (derive_equity_curve data) -> drawdown o <= 0).
  { intros o Ho. destruct (derive_in data o Ho) as (i & p & pk & Hp & Hpk & ->).
    cbn [drawdown]. apply drawdown_of_nonpos.
    apply (running_peak_ge (map raw_equity data) i); [|exact Hpk].
    rewrite nth_error_map, Hp. reflexivity. }
  apply in_map_iff in Hin. destruct Hin as (om & Hom & Hino).
  assert (Hm0 : m <= 0) by (rewrite <- Hom; apply Hnonpos, Hino).
  exists (Qabs m). split; [exact Hmd|].
  assert (Habs := Qabs_neg m Hm0). split.
  - intros o Ho. assert (m <= drawdown o) by (apply Hle, in_map, Ho). lra.
  - exists om. split; [exact Hino|]. rewrite Hom, Habs. reflexivity.
Qed.

Lemma max_drawdown_matches_frontend_witness :
  exists d,
    max_drawdown [100; 120; 90] = Fin d
    /\ (exists o,
          In o (derive_equity_curve
                  [mkRawPoint "d1" 100 100; mkRawPoint "d2" 120 20;
                   mkRawPoint "d3" 90 20])
          /\ - drawdown o == d).
Proof.
  destruct (max_drawdown_matches_frontend
              [mkRawPoint "d1" 100 100; mkRawPoint "d2" 120 20; mkRawPoint "d3" 90 20]
              (mkRawPoint "d1" 100 100)) as (d & Hd & _ & Ho).
  - reflexivity.
  - reflexivity.
  - exists d. split; [exact Hd | exact Ho].
Defined.

Lemma as_raw_points_equity (ec : list Q) : map raw_equity (as_raw_points ec) = ec.
Proof.
  unfold as_raw_points. rewrite map_map. cbn. apply map_id.
Qed.

Lemma drawdown_of_pos (e pk : Q) : 0 < pk -> drawdown_of e pk == (e - pk) / pk.
Proof.
  intro H. unfold drawdown_of. apply Qlt_bool_iff in H. rewrite H. reflexivity.
Qed.

Lemma neg_drawdown (e pk : Q) : 0 < pk -> - ((e - pk) / pk) == (pk - e) / pk.
Proof. intro H. field. lra. Qed.

(** X12. [max_drawdown] of an empty curve is NaN.  For a non-empty curve of
    positive values it is a number d with 0 <= d < 1, the largest relative
    decline (peak - equity)/peak of any point from the running peak up to
    that point. *)
Theorem max_drawdown_range :
  max_drawdown [] = NaN
  /\ forall equity_curve : list Q,
       equity_curve <> [] ->
       Forall (fun e => 0 < e) equity_curve ->
       exists d,
         max_drawdown equity_curve = Fin d
         /\ 0 <= d /\ d < 1
         /\ (forall i e pk,
               nth_error equity_curve i = Some e ->
               is_running_peak equity_curve i pk ->
               (pk - e) / pk <= d)
         /\ (exists i e pk,
               nth_error equity_curve i = Some e
               /\ is_running_peak equity_curve i pk
               /\ d == (pk - e) / pk).
Proof.
  split; [reflexivity|].
  intros ec Hne Hpos.
  set (data := as_raw_points ec).
  assert (Hes : map raw_equity data = ec) by apply as_raw_points_equity.
  assert (Hnth : forall i e, nth_error ec i = Some e ->
                   nth_error data i = Some (mkRawPoint "" e 0)).
  { intros i e He. unfold data, as_raw_points. rewrite nth_error_map, He. reflexivity. }
  assert (Hall : forall i e, nth_error ec i = Some e -> 0 < e).
  { intros i e He. rewrite Forall_forall in Hpos. apply Hpos.
    apply (nth_error_In _ _ He). }
  destruct ec as [|e0 rest] eqn:Hec; [congruence|]. rewrite <- Hec in *.
  assert (H0 : nth_error ec 0 = Some e0) by (rewrite Hec; reflexivity).
  destruct (max_drawdown_derived data (mkRawPoint "" e0 0) (Hnth _ _ H0) (Hall _ _ H0))
    as (m & Hmd & Hin & Hle).
  rewrite Hes in Hmd.
  apply in_map_iff in Hin. destruct Hin as (om & Hom & Hino).
  destruct (derive_in data om Hino) as (im & pm & pkm & Hpm & Hpkm & Heqo).
  rewrite Hes in Hpkm.
  assert (Hem : nth_error ec im = Some (raw_equity pm)).
  { rewrite <- Hes, nth_error_map, Hpm. reflexivity. }
  assert (Hem_pos := Hall _ _ Hem).
  assert (Hpk_ge := running_peak_ge ec im _ _ Hem Hpkm).
  assert (Hpk_pos : 0 < pkm) by lra.
  assert (Hm : m == (raw_equity pm - pkm) / pkm).
  { rewrite <- Hom, Heqo. cbn [drawdown]. apply drawdown_of_pos, Hpk_pos. }
  assert (Hm0 : m <= 0).
  { rewrite Hm. apply Qle_shift_div_r; [exact Hpk_pos | lra]. }
  assert (Hm1 : -1 < m).
  { rewrite Hm. apply Qlt_shift_div_l; [exact Hpk_pos | lra]. }
  assert (Habs := Qabs_neg m Hm0).
  exists (Qabs m). split; [exact Hmd|]. split; [lra|]. split; [lra|]. split.
  - intros i e pk He Hpk.
    destruct (derive_points data i _ (Hnth i e He)) as (pk' & Hpk' & Hd).
    rewrite Hes in Hpk'. cbn [raw_equity timestamp] in Hd.
    assert (Heq := running_peak_unique ec i pk pk' Hpk Hpk').
    assert (He_pos := Hall _ _ He).
    assert (Hge := running_peak_ge ec i e pk He Hpk).
    assert (Hpos' : 0 < pk') by lra.
    assert (Hq : m <= drawdown_of e pk').
    { apply Hle. apply in_map_iff. eexists. split; [|apply (nth_error_In _ _ Hd)].
      reflexivity. }
    rewrite (drawdown_of_pos e pk' Hpos') in Hq.
    rewrite Heq. rewrite <- (neg_drawdown e pk' Hpos'). lra.
  - exists im, (raw_equity pm), pkm. split; [exact Hem|]. split; [exact Hpkm|].
    rewrite Habs, Hm. apply neg_drawdown, Hpk_pos.
Qed.

Lemma max_drawdown_range_witness :
  exists d, max_drawdown [100; 120; 90; 130] = Fin d /\ 0 <= d /\ d < 1.
Proof.
  destruct (proj2 max_drawdown_range [100; 120; 90; 130]) as (d & Hd & H0 & H1 & _).
  - discriminate.
  - repeat constructor.
  - exists d. repeat split; assumption.
Defined.

Example max_drawdown_example :
  max_drawdown [100; 120; 90; 130] = Fin (Qabs ((90 - 120) / 120)).
Proof. reflexivity. Qed.

(** ** Performance metrics: trade statistics *)

Lemma filter_length_bounds (f : Q -> bool) (l : list Q) :
  (length (List.filter f l) <= length l)%nat
  /\ (length (List.filter f l) = length l <-> forall p, In p l -> f p = true)
  /\ (length (List.filter f l) = 0%nat <-> forall p, In p l -> f p = false).
Proof.
  induction l as [|x l (IH1 & IH2 & IH3)].
  - cbn. repeat split; try lia; intros; contradiction.
  - cbn [List.filter]. destruct (f x) eqn:E; cbn [length].
    + split; [lia|]. split; split.
      * intros H p [<-|Hp]; [exact E|]. apply IH2; [lia | exact Hp].
      * intro H. f_equal. apply IH2. intros p Hp. apply H. right. exact Hp.
      * intro H. lia.
      * intro H. specialize (H x (or_introl eq_refl)). congruence.
    + split; [lia|]. split; split.
      * intro H. lia.
      * intro H. specialize (H x (or_introl eq_refl)). congruence.
      * intros H p [<-|Hp]; [exact E|]. apply IH3; assumption.
      * intro H. apply IH3. intros p Hp. apply H. right. exact Hp.
Qed.

(** X13. [win_rate] is 0 for the empty ledger and otherwise a fraction in
    [0, 1]; it is 1 exactly when every trade has pnl > 0 and 0 exactly when
    none has. *)
Theorem win_rate_bounds :
  win_rate [] = 0
  /\ forall trades : list Q,
       trades <> [] ->
       0 <= win_rate trades <= 1
       /\ (win_rate trades == 1 <-> forall p, In p trades -> 0 < p)
       /\ (win_rate trades == 0 <-> forall p, In p trades -> p <= 0).
Proof.
  split; [reflexivity|].
  intros l Hne. unfold win_rate.
  destruct (length l =? 0)%nat eqn:E0.
  { apply Nat.eqb_eq in E0. destruct l; [congruence | discriminate]. }
  apply Nat.eqb_neq in E0.
  set (f := fun pnl => Qlt_bool 0 pnl).
  destruct (filter_length_bounds f l) as (Hle & Hall & Hnone).
  set (k := length (List.filter f l)) in *.
  set (n := length l) in *.
  assert (Hn : (0 < n)%nat) by lia.
  set (a := inject_Z (Z.of_nat k)). set (b := inject_Z (Z.of_nat n)).
  assert (Hnq : 0 < b).
  { unfold b. change 0 with (inject_Z 0). rewrite <- Zlt_Qlt. lia. }
  assert (Hkq : 0 <= a).
  { unfold a. change 0 with (inject_Z 0). rewrite <- Zle_Qle. lia. }
  assert (Hkn : a <= b).
  { unfold a, b. rewrite <- Zle_Qle. lia. }
  assert (Hinj1 : a == b <-> k = n).
  { unfold a, b. rewrite inject_Z_injective. lia. }
  assert (Hinj0 : a == 0 <-> k = 0%nat).
  { unfold a. change 0 with (inject_Z 0). rewrite inject_Z_injective. lia. }
  clearbody a b.
  assert (H1 : a / b == 1 <-> a == b).
  { split; intro H.
    - rewrite <- (Qmult_1_l b), <- H. field. lra.
    - rewrite H. field. lra. }
  assert (H0 : a / b == 0 <-> a == 0).
  { split; intro H.
    - rewrite <- (Qmult_0_l b), <- H. field. lra.
    - rewrite H. field. lra. }
  split; [split|split].
  - apply Qle_shift_div_l; [exact Hnq | lra].
  - apply Qle_shift_div_r; [exact Hnq | lra].
  - rewrite H1, Hinj1, Hall. split; intros H p Hp.
    + apply Qlt_bool_iff. apply H, Hp.
    + apply Qlt_bool_iff. apply H, Hp.
  - rewrite H0, Hinj0, Hnone. split; intros H p Hp.
    + apply Qlt_bool_false_iff. apply H, Hp.
    + apply Qlt_bool_false_iff. apply H, Hp.
Qed.

Lemma win_rate_bounds_witness :
  0 <= win_rate sample_ledger <= 1.
Proof.
  apply (proj2 win_rate_bounds sample_ledger). discriminate.
Defined.

Lemma Qsum_split (l : list Q) :
  Qsum l == Qsum (List.filter (fun pnl => Qlt_bool 0 pnl) l)
            + Qsum (List.filter (fun pnl => Qlt_bool pnl 0) l).
Proof.
  induction l as [|x l IH]; [reflexivity|].
  rewrite Qsum_cons. cbn [List.filter].
  destruct (Qlt_bool 0 x) eqn:E1;
    [apply Qlt_bool_iff in E1 | apply Qlt_bool_false_iff in E1];
  destruct (Qlt_bool x 0) eqn:E2;
    [apply Qlt_bool_iff in E2 | apply Qlt_bool_false_iff in E2
    |apply Qlt_bool_iff in E2 | apply Qlt_bool_false_iff in E2];
  rewrite ?Qsum_cons, IH; lra.
Qed.

(** X14. [profit_factor] is never NaN and never negative.  When the ledger
    has a losing trade it is a finite number that exceeds 1 exactly when the
    total pnl of the ledger is positive and equals 1 exactly when the total
    pnl is zero. *)
Theorem profit_factor_vs_total_pnl (trades : list Q) :
  match profit_factor trades with
  | Fin q => 0 <= q
  | PInf => True
  | NInf | NaN => False
  end
  /\ ((exists p, In p trades /\ p < 0) ->
      exists q,
        profit_factor trades = Fin q
        /\ (1 < q <-> 0 < Qsum trades)
        /\ (q == 1 <-> Qsum trades == 0)).
Proof.
  assert (Hsplit := Qsum_split trades).
  destruct (Qsum_wins trades) as [Hw _].
  destruct (Qsum_losses trades) as [Hl Hl'].
  set (gp := Qsum (List.filter (fun pnl => Qlt_bool 0 pnl) trades)) in *.
  set (sl := Qsum (List.filter (fun pnl => Qlt_bool pnl 0) trades)) in *.
  assert (Habs := Qabs_neg sl Hl).
  split.
  - unfold profit_factor. destruct (length trades =? 0)%nat; [cbn; lra|].
    fold gp sl.
    destruct (Qeq_bool (Qabs sl) 0) eqn:E.
    + destruct (Qlt_bool 0 gp); [exact I | cbn; lra].
    + assert (Hnz : ~ Qabs sl == 0).
      { intro H. apply Qeq_bool_iff in H. congruence. }
      apply Qle_shift_div_l; lra.
  - intro Hloss. specialize (Hl' Hloss).
    assert (Hgl : 0 < Qabs sl) by lra.
    exists (gp / Qabs sl). split.
    + unfold profit_factor.
      destruct trades as [|t ts]; [destruct Hloss as (p & [] & _)|].
      cbn [length Nat.eqb]. fold gp sl.
      destruct (Qeq_bool (Qabs sl) 0) eqn:E; [apply Qeq_bool_iff in E; lra|].
      reflexivity.
    + set (g := Qabs sl) in *. clearbody g.
      assert (E : gp / g * g == gp) by (field; lra).
      split; split; intro H.
      * assert (H' : 1 * g < gp / g * g) by (apply Qmult_lt_r; assumption).
        lra.
      * apply Qlt_shift_div_l; [exact Hgl | lra].
      * assert (H' : gp == g) by (rewrite <- E, H; ring).
        lra.
      * assert (H' : gp == g) by lra. rewrite H'. field. lra.
Qed.

Lemma profit_factor_vs_total_pnl_witness :
  exists q, profit_factor [3; -2; 1] = Fin q /\ (1 < q <-> 0 < Qsum [3; -2; 1]).
Proof.
  destruct (proj2 (profit_factor_vs_total_pnl [3; -2; 1])) as (q & Hq & H1 & _).
  - exists (-2). split; [right; left; reflexivity | reflexivity].
  - exists q. split; assumption.
Defined.

Lemma is_run_bound (l : list bool) (i k : nat) :
  is_run l i k -> (0 < k)%nat -> (i + k <= length l)%nat.
Proof.
  intros H Hk.
  specialize (H (k - 1)%nat ltac:(lia)).
  assert (Hlt : (i + (k - 1) < length l)%nat).
  { apply nth_error_Some. congruence. }
  lia.
Qed.

(** X15. [max_consecutive] never exceeds the number of trades; it is 0
    exactly when no trade is classified (no winner for the win streak, no
    pnl <= 0 for the loss streak) and it equals the number of trades
    exactly when every trade is classified. *)
Theorem max_consecutive_extremes (trades : list Q) (win : bool) :
  (max_consecutive trades win <= length trades)%nat
  /\ (max_consecutive trades win = 0%nat <->
      forall p, In p trades -> classify win p = false)
  /\ (max_consecutive trades win = length trades <->
      forall p, In p trades -> classify win p = true).
Proof.
  rewrite max_consecutive_fold.
  set (results := map (classify win) trades).
  set (M := fst (fold_left streak_step results (0%nat, 0%nat))).
  assert (Hlen : length results = length trades) by apply length_map.
  assert (Hup : forall i k, is_run results i k -> (k <= M)%nat).
  { intros i k H. exact (proj1 (proj2 (streak_upper results 0 0 (le_n _)) i k H)). }
  assert (Hatt : exists i, is_run results i M).
  { destruct (streak_attained results 0 0) as [H|[(k & Hk & H)|(i & k & Hk & H)]];
      cbn zeta in H; fold M in H; rewrite H.
    - exists 0%nat. apply is_run_nil_len.
    - exists 0%nat. exact Hk.
    - exists i. exact Hk. }
  destruct Hatt as [i0 Hrun].
  assert (HM : (M <= length trades)%nat).
  { destruct M as [|M']; [lia|]. rewrite <- Hlen.
    assert (H := is_run_bound results i0 (S M') Hrun ltac:(lia)). lia. }
  split; [exact HM|]. split; split.
  - intros H0 p Hp.
    destruct (classify win p) eqn:E; [|reflexivity]. exfalso.
    apply In_nth_error in Hp. destruct Hp as [i Hi].
    assert (H1 : is_run results i 1).
    { intros j Hj. assert (j = 0%nat) by lia. subst j.
      rewrite Nat.add_0_r. unfold results. rewrite nth_error_map, Hi. cbn. congruence. }
    specialize (Hup i 1%nat H1). lia.
  - intro Hnone. destruct M as [|M']; [reflexivity|]. exfalso.
    specialize (Hrun 0%nat ltac:(lia)). rewrite Nat.add_0_r in Hrun.
    unfold results in Hrun. rewrite nth_error_map in Hrun.
    destruct (nth_error trades i0) as [p|] eqn:Hp; [|discriminate].
    cbn in Hrun. rewrite (Hnone p (nth_error_In _ _ Hp)) in Hrun. discriminate.
  - intros HMl p Hp.
    apply In_nth_error in Hp. destruct Hp as [i Hi].
    assert (Hi' : (i < length trades)%nat) by (apply nth_error_Some; congruence).
    assert (Hi0 : i0 = 0%nat).
    { assert (H := is_run_bound results i0 M Hrun ltac:(lia)). lia. }
    subst i0. specialize (Hrun i ltac:(lia)). cbn in Hrun.
    unfold results in Hrun. rewrite nth_error_map, Hi in Hrun. cbn in Hrun. congruence.
  - intro Hall. apply Nat.le_antisymm; [exact HM|].
    apply (Hup 0%nat). intros j Hj. cbn.
    unfold results. rewrite nth_error_map.
    destruct (nth_error trades j) as [p|] eqn:Hp; [|apply nth_error_None in Hp; lia].
    cbn. f_equal. apply Hall. apply (nth_error_In _ _ Hp).
Qed.

Lemma max_consecutive_extremes_witness :
  max_consecutive [3; 1; 2] true = 3%nat /\ max_consecutive [3; 1; 2] false = 0%nat.
Proof.
  split.
  - apply (proj2 (proj2 (proj2 (max_consecutive_extremes [3; 1; 2] true)))).
    intros p [<-|[<-|[<-|[]]]]; reflexivity.
  - apply (proj2 (proj1 (proj2 (max_consecutive_extremes [3; 1; 2] false)))).
    intros p [<-|[<-|[<-|[]]]]; reflexivity.
Defined.

(** ** Performance metrics: ratios *)

Lemma dropna_length (l : list fval) : (length (dropna l) <= length l)%nat.
Proof. unfold dropna. apply List.filter_length_le. Qed.

Lemma fdiv_nan_r (x : fval) : fdiv x NaN = NaN.
Proof. destruct x; reflexivity. Qed.

(** X16. When exactly one return of the curve is negative, the sample
    standard deviation of the downside returns is NaN, the guard of
    [sortino_ratio] does not fire and the result is NaN (for a non-zero
    number of trading days). *)
Theorem sortino_single_downside (sqrtQ : Q -> Q) (equity_curve : list Q)
    (risk_free_rate : Q) (trading_days : Z) :
  trading_days <> 0%Z ->
  length (List.filter (fun r => flt r (Fin 0)) (calculate_returns equity_curve)) = 1%nat ->
  sortino_ratio sqrtQ equity_curve risk_free_rate trading_days = Ok NaN.
Proof.
  intros Htd Hone. unfold sortino_ratio.
  apply Z.eqb_neq in Htd. rewrite Htd.
  set (downside := List.filter _ (calculate_returns equity_curve)) in *.
  rewrite Hone. cbn [Nat.eqb orb].
  assert (Hstd : pd_std sqrtQ downside = NaN).
  { unfold pd_std. assert (H := dropna_length downside).
    destruct (length (dropna downside) <=? 1)%nat eqn:E; [reflexivity|].
    apply Nat.leb_gt in E. lia. }
  rewrite Hstd. cbn [feq]. rewrite fdiv_nan_r. reflexivity.
Qed.

Lemma sortino_single_downside_witness :
  sortino_ratio Qsqrt_approx [100; 90; 95] (2 # 100) 252 = Ok NaN.
Proof.
  apply (sortino_single_downside Qsqrt_approx [100; 90; 95] (2 # 100) 252).
  - discriminate.
  - reflexivity.
Defined.

(** X17. For a curve of n >= 1 points and a positive number of trading
    days, [annual_return] is (1 + total_return)^(trading_days / n) - 1; for
    a negative number of trading days it is 0. *)
Theorem annual_return_formula (fpow : fval -> fval -> fval)
    (equity_curve : list Q) (trading_days : Z) :
  equity_curve <> [] ->
  ((0 < trading_days)%Z ->
     exists total_ret exponent,
       total_return equity_curve = Ok total_ret
       /\ exponent == inject_Z trading_days / inject_Z (Z.of_nat (length equity_curve))
       /\ annual_return fpow equity_curve trading_days
          = Ok (fsub (fpow (fadd (Fin 1) total_ret) (Fin exponent)) (Fin 1)))
  /\ ((trading_days < 0)%Z ->
      annual_return fpow equity_curve trading_days = Ok (Fin 0)).
Proof.
  intro Hne. split.
  - intro Htd. apply annual_return_nonempty; assumption.
  - intro Htd. unfold annual_return.
    destruct (trading_days =? 0)%Z eqn:E; [apply Z.eqb_eq in E; lia|].
    destruct equity_curve as [|e0 rest]; [congruence|].
    cbn [total_return iloc_last iloc_first bind].
    set (n := Z.of_nat (length (e0 :: rest))).
    assert (Hn : (0 < n)%Z) by (unfold n; cbn [length]; lia).
    assert (Hy : inject_Z n / inject_Z trading_days <= 0).
    { assert (Hnq : 0 < inject_Z n).
      { change 0 with (inject_Z 0). rewrite <- Zlt_Qlt. exact Hn. }
      assert (Htq : inject_Z trading_days < 0).
      { change 0 with (inject_Z 0). rewrite <- Zlt_Qlt. exact Htd. }
      set (a := inject_Z n) in *. set (t := inject_Z trading_days) in *.
      clearbody a t.
      assert (E1 : a / t == - (a / - t)) by (field; lra).
      rewrite E1.
      assert (0 <= a / - t) by (apply Qle_shift_div_l; lra).
      lra. }
    apply Qle_bool_iff in Hy. rewrite Hy. reflexivity.
Qed.

Lemma annual_return_formula_witness :
  exists total_ret exponent,
    total_return [100; 110] = Ok total_ret
    /\ exponent == inject_Z 252 / inject_Z 2
    /\ annual_return (fun x _ => x) [100; 110] 252
       = Ok (fsub (fadd (Fin 1) total_ret) (Fin 1)).
Proof.
  apply (proj1 (annual_return_formula (fun x _ => x) [100; 110] 252 ltac:(discriminate))).
  reflexivity.
Defined.

(** ** Strategy: state and orders *)

(** X18. [_get_state] creates the state of a symbol on first access and
    then keeps it: afterwards the symbol maps to the returned state, a
    second access returns the same state without changing the map, and no
    other symbol is affected. *)
Theorem get_state_idempotent (_state : gmap string Strategy.SymbolState)
    (sym : string) :
  let '(state, _state') := Strategy._get_state _state sym in
  _state' !! sym = Some state
  /\ Strategy._get_state _state' sym = (state, _state')
  /\ (_state !! sym = None -> state = Strategy._init_state)
  /\ (forall st, _state !! sym = Some st -> state = st /\ _state' = _state)
  /\ (forall s, s <> sym -> _state' !! s = _state !! s).
Proof.
  unfold Strategy._get_state.
  destruct (_state !! sym) as [st|] eqn:E.
  - rewrite E. repeat split; intros; congruence.
  - rewrite lookup_insert_eq. repeat split; intros; try congruence.
    apply lookup_insert_ne. congruence.
Qed.

Lemma get_state_idempotent_witness :
  fst (Strategy._get_state sample_state "BBB"%string) = Strategy._init_state.
Proof.
  pose proof (get_state_idempotent sample_state "BBB"%string) as H.
  destruct (Strategy._get_state sample_state "BBB"%string) as [state st'].
  destruct H as (_ & _ & H & _). apply H. vm_compute. reflexivity.
Defined.

Section StrategyState.

Variable sqrtQ : Q -> Q.
Variable params : Strategy.Parameters.
Variable portfolio : Portfolio.

Local Abbreviation step := (Strategy.on_bar_symbol sqrtQ params portfolio).

(** The state one iteration leaves for its own symbol. *)
Lemma on_bar_symbol_state (orders : list Strategy.PendingOrder)
    (st : gmap string Strategy.SymbolState) (sym : string) (bar : Strategy.Bar) :
  snd (step (orders, st) (sym, bar)) !! sym
  = Some {| Strategy.price_history :=
              Strategy.history_with st sym (Strategy.bar_close bar);
            Strategy.volume_history :=
              Strategy.volume_history (fst (Strategy._get_state st sym)) |}.
Proof.
  unfold Strategy.on_bar_symbol, Strategy.history_with.
  destruct (Strategy._get_state st sym) as [state st1].
  cbn [fst snd Strategy.price_history].
  repeat match goal with
         | |- context [match ?c with _ => _ end] => destruct c
         end;
    cbn [snd]; apply lookup_insert_eq.
Qed.

Lemma fold_state (bars : list (string * Strategy.Bar)) (s : string)
    (bar : Strategy.Bar) :
  List.NoDup (map fst bars) ->
  In (s, bar) bars ->
  forall acc,
    snd (fold_left step bars acc) !! s
    = Some {| Strategy.price_history :=
                Strategy.history_with (snd acc) s (Strategy.bar_close bar);
              Strategy.volume_history :=
                Strategy.volume_history (fst (Strategy._get_state (snd acc) s)) |}.
Proof.
  intros Hnd Hin [orders st].
  apply in_split in Hin. destruct Hin as (pre & post & ->).
  rewrite map_app in Hnd. cbn [map fst] in Hnd.
  assert (Hnot := NoDup_remove_2 _ _ _ Hnd).
  assert (Hpre : ~ In s (map fst pre)) by (intro; apply Hnot, in_or_app; left; assumption).
  assert (Hpost : ~ In s (map fst post)) by (intro; apply Hnot, in_or_app; right; assumption).
  rewrite fold_left_app. cbn [fold_left snd].
  destruct (fold_other sqrtQ params portfolio pre s Hpre (orders, st)) as [Hst _].
  destruct (fold_left _ pre (orders, st)) as [orders1 st1].
  cbn [snd] in Hst.
  destruct (fold_other sqrtQ params portfolio post s Hpost
              (Strategy.on_bar_symbol sqrtQ params portfolio (orders1, st1) (s, bar)))
    as [Hst2 _].
  rewrite Hst2, on_bar_symbol_state.
  rewrite (history_with_lookup st1 st s _ Hst), (get_state_lookup st1 st s Hst).
  reflexivity.
Qed.

Lemma emitted_cases (history : list Q) (sym : string) (close : Q) :
  emitted sqrtQ params portfolio history sym close = []
  \/ (exists z,
        emitted sqrtQ params portfolio history sym close
        = [Strategy.buy_order params sym z]
        /\ get_position portfolio sym = None)
  \/ (exists z,
        emitted sqrtQ params portfolio history sym close
        = [Strategy.sell_order params sym z]
        /\ is_Some (get_position portfolio sym)).
Proof.
  unfold emitted.
  repeat match goal with
         | |- context [if ?c then _ else _] => destruct c eqn:?
         | |- context [match ?c with _ => _ end] => destruct c eqn:?
         end;
    try (left; reflexivity).
  - right. left. eexists. split; [reflexivity|].
    match goal with
    | H : (_ && bool_decide (_ = None)) = true |- _ =>
        apply andb_prop in H; destruct H as [_ H];
        apply bool_decide_eq_true_1 in H; exact H
    end.
  - right. right. eexists. split; [reflexivity|].
    match goal with
    | H : (bool_decide (is_Some _) && _) = true |- _ =>
        apply andb_prop in H; destruct H as [H _];
        apply bool_decide_eq_true_1 in H; exact H
    end.
Qed.

(** Every order of the result was emitted by the iteration of one of the
    bars. *)
Lemma fold_orders_origin (bars : list (string * Strategy.Bar)) :
  forall acc o,
    In o (fst (fold_left step bars acc)) ->
    In o (fst acc)
    \/ exists sym bar history,
         In (sym, bar) bars
         /\ In o (emitted sqrtQ params portfolio history sym (Strategy.bar_close bar)).
Proof.
  induction bars as [|[sym bar] bars IH]; intros [orders st] o Ho; cbn [fold_left] in Ho.
  - left. exact Ho.
  - destruct (IH _ o Ho) as [H|(sym' & bar' & h & Hin & He)].
    + destruct (on_bar_symbol_emitted sqrtQ params portfolio orders st sym bar) as [Heq _].
      rewrite Heq in H. apply in_app_or in H. destruct H as [H|H].
      * left. exact H.
      * right. exists sym, bar. eexists. split; [left; reflexivity | exact H].
    + right. exists sym', bar', h. split; [right; exact Hin | exact He].
Qed.

End StrategyState.

(** X19. After [on_bar], the price history of every symbol that has a bar is
    its previous history followed by the close of that bar, its volume
    history is unchanged, and the state of every symbol without a bar is
    what it was. *)
Theorem on_bar_state_update (sqrtQ : Q -> Q) (params : Strategy.Parameters)
    (_state : gmap string Strategy.SymbolState)
    (bars : list (string * Strategy.Bar)) (portfolio : Portfolio) :
  List.NoDup (map fst bars) ->
  let _state' := snd (Strategy.on_bar sqrtQ params _state bars portfolio) in
  (forall s bar, In (s, bar) bars ->
     _state' !! s
     = Some {| Strategy.price_history :=
                 Strategy.price_history (fst (Strategy._get_state _state s))
                 ++ [Strategy.bar_close bar];
               Strategy.volume_history :=
                 Strategy.volume_history (fst (Strategy._get_state _state s)) |})
  /\ (forall s, ~ In s (map fst bars) -> _state' !! s = _state !! s).
Proof.
  intros Hnd st'. split.
  - intros s bar Hin. unfold st', Strategy.on_bar.
    apply (fold_state sqrtQ params portfolio bars s bar Hnd Hin ([], _state)).
  - intros s Hs. unfold st', Strategy.on_bar.
    apply (fold_other sqrtQ params portfolio bars s Hs ([], _state)).
Qed.

Lemma on_bar_state_update_witness :
  snd (Strategy.on_bar Qsqrt_approx sample_params sample_state
         [("AAA"%string, sample_bar 4); ("BBB"%string, sample_bar 7)] flat_portfolio)
    !! "AAA"%string
  = Some {| Strategy.price_history := [10; 10; 4]; Strategy.volume_history := [] |}.
Proof.
  apply (proj1 (on_bar_state_update Qsqrt_approx sample_params sample_state
                  [("AAA"%string, sample_bar 4); ("BBB"%string, sample_bar 7)]
                  flat_portfolio ltac:(repeat constructor; cbn; intuition discriminate))
           "AAA"%string (sample_bar 4)).
  left. reflexivity.
Defined.

(** X20. [on_bar] never buys a symbol that is held and never sells one that
    is not: every order it returns is for a symbol of [bars]; a BUY is for a
    symbol without a position and has weight [position_weight], a SELL is
    for a held symbol and has weight 1. *)
Theorem on_bar_orders_sound (sqrtQ : Q -> Q) (params : Strategy.Parameters)
    (_state : gmap string Strategy.SymbolState)
    (bars : list (string * Strategy.Bar)) (portfolio : Portfolio)
    (o : Strategy.PendingOrder) :
  In o (fst (Strategy.on_bar sqrtQ params _state bars portfolio)) ->
  In (Strategy.symbol o) (map fst bars)
  /\ (Strategy.side o = BUY ->
      get_position portfolio (Strategy.symbol o) = None
      /\ Strategy.weight o = Strategy.position_weight params)
  /\ (Strategy.side o = SELL ->
      is_Some (get_position portfolio (Strategy.symbol o))
      /\ Strategy.weight o = 1).
Proof.
  intro Ho. unfold Strategy.on_bar in Ho.
  destruct (fold_orders_origin sqrtQ params portfolio bars ([], _state) o Ho)
    as [[]|(sym & bar & h & Hin & He)].
  assert (Hkey : In sym (map fst bars)).
  { apply in_map_iff. exists (sym, bar). split; [reflexivity | exact Hin]. }
  destruct (emitted_cases sqrtQ params portfolio h sym (Strategy.bar_close bar))
    as [E|[(z & E & Hpos)|(z & E & Hpos)]]; rewrite E in He.
  - destruct He.
  - destruct He as [<-|[]]. cbn. repeat split; try assumption; discriminate.
  - destruct He as [<-|[]]. cbn. repeat split; try assumption; discriminate.
Qed.

Lemma on_bar_orders_sound_witness :
  get_position flat_portfolio "AAA"%string = None.
Proof.
  destruct (on_bar_orders_sound Qsqrt_approx sample_params sample_state
              [("AAA"%string, sample_bar 4)] flat_portfolio
              (Strategy.buy_order sample_params "AAA"%string
                 ((4 - Qsum [10; 10; 4] / 3)
                  / Qsqrt_approx
                      (Qsum (map (fun x => (x - Qsum [10; 10; 4] / 3)
                                           * (x - Qsum [10; 10; 4] / 3)) [10; 10; 4])
                       / 3))))
    as (_ & Hbuy & _).
  - vm_compute. left. reflexivity.
  - apply Hbuy. reflexivity.
Defined.

(** X21. With distinct keys, one call of [on_bar] returns at most one order
    per symbol, and none for a symbol that has no bar. *)
Theorem on_bar_one_order_per_symbol (sqrtQ : Q -> Q) (params : Strategy.Parameters)
    (_state : gmap string Strategy.SymbolState)
    (bars : list (string * Strategy.Bar)) (portfolio : Portfolio) (s : string) :
  List.NoDup (map fst bars) ->
  let orders := fst (Strategy.on_bar sqrtQ params _state bars portfolio) in
  (length (orders_for s orders) <= 1)%nat
  /\ (~ In s (map fst bars) -> orders_for s orders = []).
Proof.
  intros Hnd orders.
  assert (Habsent : ~ In s (map fst bars) -> orders_for s orders = []).
  { intro Hs. unfold orders, Strategy.on_bar.
    destruct (fold_other sqrtQ params portfolio bars s Hs ([], _state))
      as [_ (new & Hnew & Hsym)].
    rewrite Hnew. cbn [fst app]. apply orders_for_none, Hsym. }
  split; [|exact Habsent].
  destruct (in_dec String.string_dec s (map fst bars)) as [Hin|Hnin].
  - apply in_map_iff in Hin. destruct Hin as ([s' bar] & Hs & Hin).
    cbn in Hs. subst s'.
    unfold orders.
    rewrite (on_bar_orders_for sqrtQ params portfolio _state bars s bar Hnd Hin).
    destruct (emitted_cases sqrtQ params portfolio
                (Strategy.history_with _state s (Strategy.bar_close bar)) s
                (Strategy.bar_close bar)) as [E|[(z & E & _)|(z & E & _)]];
      rewrite E; cbn; lia.
  - rewrite (Habsent Hnin). cbn. lia.
Qed.

Lemma on_bar_one_order_per_symbol_witness :
  (length (orders_for "AAA"%string
             (fst (Strategy.on_bar Qsqrt_approx sample_params sample_state
                     [("AAA"%string, sample_bar 4); ("BBB"%string, sample_bar 7)]
                     flat_portfolio))) <= 1)%nat.
Proof.
  apply (on_bar_one_order_per_symbol Qsqrt_approx sample_params sample_state
           [("AAA"%string, sample_bar 4); ("BBB"%string, sample_bar 7)]
           flat_portfolio "AAA"%string).
  repeat constructor; cbn; intuition discriminate.
Defined.

(** X22. Per-symbol isolation: the orders [on_bar] returns for a symbol and
    the state it leaves for that symbol depend only on that symbol's own
    bar and previous state, not on the bars or states of the other
    symbols. *)
Theorem on_bar_symbol_isolation (sqrtQ : Q -> Q) (params : Strategy.Parameters)
    (portfolio : Portfolio)
    (st1 st2 : gmap string Strategy.SymbolState)
    (bars1 bars2 : list (string * Strategy.Bar))
    (s : string) (bar : Strategy.Bar) :
  List.NoDup (map fst bars1) ->
  List.NoDup (map fst bars2) ->
  In (s, bar) bars1 ->
  In (s, bar) bars2 ->
  st1 !! s = st2 !! s ->
  orders_for s (fst (Strategy.on_bar sqrtQ params st1 bars1 portfolio))
  = orders_for s (fst (Strategy.on_bar sqrtQ params st2 bars2 portfolio))
  /\ snd (Strategy.on_bar sqrtQ params st1 bars1 portfolio) !! s
     = snd (Strategy.on_bar sqrtQ params st2 bars2 portfolio) !! s.
Proof.
  intros Hnd1 Hnd2 Hin1 Hin2 Hst. split.
  - rewrite (on_bar_orders_for sqrtQ params portfolio st1 bars1 s bar Hnd1 Hin1).
    rewrite (on_bar_orders_for sqrtQ params portfolio st2 bars2 s bar Hnd2 Hin2).
    rewrite (history_with_lookup st1 st2 s _ Hst). reflexivity.
  - unfold Strategy.on_bar.
    rewrite (fold_state sqrtQ params portfolio bars1 s bar Hnd1 Hin1 ([], st1)).
    rewrite (fold_state sqrtQ params portfolio bars2 s bar Hnd2 Hin2 ([], st2)).
    cbn [snd].
    rewrite (history_with_lookup st1 st2 s _ Hst), (get_state_lookup st1 st2 s Hst).
    reflexivity.
Qed.

Lemma on_bar_symbol_isolation_witness :
  orders_for "AAA"%string
    (fst (Strategy.on_bar Qsqrt_approx sample_params sample_state
            [("AAA"%string, sample_bar 4); ("BBB"%string, sample_bar 7)] flat_portfolio))
  = orders_for "AAA"%string
      (fst (Strategy.on_bar Qsqrt_approx sample_params
              (<["CCC"%string := Strategy._init_state]> sample_state)
              [("CCC"%string, sample_bar 1); ("AAA"%string, sample_bar 4)]
              flat_portfolio)).
Proof.
  apply (on_bar_symbol_isolation Qsqrt_approx sample_params flat_portfolio
           sample_state (<["CCC"%string := Strategy._init_state]> sample_state)
           [("AAA"%string, sample_bar 4); ("BBB"%string, sample_bar 7)]
           [("CCC"%string, sample_bar 1); ("AAA"%string, sample_bar 4)]
           "AAA"%string (sample_bar 4)).
  - repeat constructor; cbn; intuition discriminate.
  - repeat constructor; cbn; intuition discriminate.
  - left. reflexivity.
  - right. left. reflexivity.
  - vm_compute. reflexivity.
Defined.

(** ** Frontend: drawdown chart and trades table *)

(** X23. What the drawdown chart plots for a curve converted by
    [getBacktest] whose equity values are all positive: one point per
    equity point, each a percentage between -100 (exclusive) and 0. *)
Theorem drawdown_chart_range (data : list RawPoint) :
  data <> [] ->
  Forall (fun p => 0 < raw_equity p) data ->
  exists dd,
    DrawdownChart.ddData
      (Some (map DrawdownChart.of_api (derive_equity_curve data))) = Some dd
    /\ length dd = length data
    /\ Forall (fun d => -100 < DrawdownChart.dd_drawdown d
                        /\ DrawdownChart.dd_drawdown d <= 0) dd.
Proof.
  intros Hne Hpos.
  set (out := derive_equity_curve data).
  assert (Hlen : length out = length data).
  { unfold out. destruct data; [reflexivity | apply map_points_length]. }
  assert (Hout : out <> []).
  { intro H. rewrite H in Hlen. destruct data; [congruence | discriminate]. }
  eexists. split.
  - unfold DrawdownChart.ddData.
    destruct (map DrawdownChart.of_api out) as [|x xs] eqn:E.
    + destruct out; [congruence | discriminate].
    + rewrite <- E. reflexivity.
  - split; [rewrite !length_map; exact Hlen|].
    rewrite map_map. apply Forall_map. apply List.Forall_forall.
    intros o Ho. cbn.
    destruct (derive_in data o Ho) as (i & p & pk & Hp & Hpk & ->).
    cbn [drawdown].
    assert (He : 0 < raw_equity p).
    { rewrite List.Forall_forall in Hpos. apply Hpos, (nth_error_In _ _ Hp). }
    assert (Hge : raw_equity p <= pk).
    { apply (running_peak_ge (map raw_equity data) i); [|exact Hpk].
      rewrite nth_error_map, Hp. reflexivity. }
    assert (Hpk0 : 0 < pk) by lra.
    rewrite (drawdown_of_pos _ _ Hpk0).
    assert (H1 : -1 < (raw_equity p - pk) / pk) by (apply Qlt_shift_div_l; lra).
    assert (H2 : (raw_equity p - pk) / pk <= 0) by (apply Qle_shift_div_r; lra).
    split; lra.
Qed.

Lemma drawdown_chart_range_witness :
  exists dd,
    DrawdownChart.ddData
      (Some (map DrawdownChart.of_api
               (derive_equity_curve
                  [mkRawPoint "d1" 100 100; mkRawPoint "d2" 120 20;
                   mkRawPoint "d3" 90 20]))) = Some dd
    /\ length dd = 3%nat.
Proof.
  destruct (drawdown_chart_range
              [mkRawPoint "d1" 100 100; mkRawPoint "d2" 120 20; mkRawPoint "d3" 90 20])
    as (dd & Hdd & Hlen & _).
  - discriminate.
  - repeat constructor.
  - exists dd. split; assumption.
Defined.

Section Pagination.

Context {A : Type}.

Lemma firstn_add_skipn (a b : nat) (l : list A) :
  firstn (a + b) l = firstn a l ++ firstn b (skipn a l).
Proof.
  revert l. induction a as [|a IH]; intro l; [reflexivity|].
  destruct l as [|x l]; cbn.
  - destruct b; reflexivity.
  - f_equal. apply IH.
Qed.

Lemma firstn_clamp (n : nat) (l : list A) :
  firstn (Nat.min n (length l)) l = firstn n l.
Proof.
  destruct (Nat.le_gt_cases n (length l)) as [H|H].
  - rewrite Nat.min_l by exact H. reflexivity.
  - rewrite Nat.min_r by lia. rewrite !firstn_all2 by lia. reflexivity.
Qed.

(** For a page number >= 1 the slice is the chunk of 15 rows after the
    first 15*(page-1). *)
Lemma paged_chunk (page : nat) (l : list A) :
  TradesTable.paged (Z.of_nat (S page)) l = firstn 15 (skipn (15 * page) l).
Proof.
  unfold TradesTable.paged, js_slice, TradesTable.PAGE_SIZE.
  set (len := length l).
  destruct ((Z.of_nat (S page) - 1) * 15 <? 0)%Z eqn:E1; [apply Z.ltb_lt in E1; lia|].
  destruct (Z.of_nat (S page) * 15 <? 0)%Z eqn:E2; [apply Z.ltb_lt in E2; lia|].
  destruct (Nat.le_gt_cases len (15 * page)) as [H|H].
  - rewrite (skipn_all2 l (n := 15 * page)) by exact H.
    rewrite skipn_all2 by lia. rewrite !firstn_nil. reflexivity.
  - replace (Z.to_nat (Z.min ((Z.of_nat (S page) - 1) * 15) (Z.of_nat len)))
      with (15 * page)%nat by lia.
    rewrite <- (firstn_clamp 15 (skipn (15 * page) l)).
    rewrite length_skipn. fold len. f_equal. lia.
Qed.

Lemma chunks_concat (n : nat) (l : list A) :
  concat (map (fun i => firstn 15 (skipn (15 * i) l)) (seq 0 n)) = firstn (15 * n) l.
Proof.
  induction n as [|n IH]; [reflexivity|].
  rewrite seq_S, map_app, concat_app, IH. cbn [map concat Nat.add].
  rewrite app_nil_r.
  replace (15 * S n)%nat with (15 * n + 15)%nat by lia.
  symmetry. apply firstn_add_skipn.
Qed.

Lemma totalPages_div (l : list A) :
  TradesTable.totalPages l = ((Z.of_nat (length l) + 14) / 15)%Z.
Proof.
  unfold TradesTable.totalPages, TradesTable.PAGE_SIZE, Qceiling, Qfloor.
  cbn. rewrite Z.mul_1_r.
  set (n := Z.of_nat (length l)).
  assert (0 <= n)%Z by lia.
  Z.to_euclidean_division_equations. lia.
Qed.

(** X24. Pagination of the trades table covers the sorted list exactly
    once: the pages 1..totalPages concatenate to the list; every such page
    has between 1 and 15 rows and every page but the last has 15; a page
    beyond the last is empty; and totalPages is (rows + 14) div 15. *)
Theorem pagination_partition (sorted : list A) :
  let pages := Z.to_nat (TradesTable.totalPages sorted) in
  TradesTable.totalPages sorted = ((Z.of_nat (length sorted) + 14) / 15)%Z
  /\ concat (map (fun p => TradesTable.paged (Z.of_nat p) sorted) (seq 1 pages))
     = sorted
  /\ (forall p, (1 <= p <= pages)%nat ->
        (1 <= length (TradesTable.paged (Z.of_nat p) sorted) <= 15)%nat
        /\ ((p < pages)%nat ->
            length (TradesTable.paged (Z.of_nat p) sorted) = 15%nat))
  /\ (forall p, (pages < p)%nat -> TradesTable.paged (Z.of_nat p) sorted = []).
Proof.
  intro pages.
  assert (Htp := totalPages_div sorted).
  set (len := length sorted) in *.
  assert (Hpages : (15 * pages >= len /\ (0 < len -> 15 * (pages - 1) < len)
                    /\ (len = 0 -> pages = 0))%nat).
  { unfold pages. rewrite Htp.
    assert (Hq : (0 <= (Z.of_nat len + 14) / 15)%Z) by (apply Z.div_pos; lia).
    assert (E : forall k, (k = (Z.of_nat len + 14) / 15 ->
                 15 * k >= Z.of_nat len /\ 15 * (k - 1) < Z.of_nat len + 0
                 /\ (Z.of_nat len = 0 -> k = 0))%Z).
    { intros k Hk. Z.to_euclidean_division_equations. lia. }
    specialize (E _ eq_refl). lia. }
  split; [exact Htp|]. split; [|split].
  - rewrite <- seq_shift, map_map.
    rewrite (map_ext _ (fun i => firstn 15 (skipn (15 * i) sorted)))
      by (intro i; apply paged_chunk).
    rewrite chunks_concat. apply firstn_all2. fold len. lia.
  - intros p Hp. destruct p as [|p]; [lia|].
    rewrite paged_chunk, length_firstn, length_skipn. fold len.
    split; [|intro Hlt]; nia.
  - intros p Hp. destruct p as [|p]; [lia|].
    rewrite paged_chunk, skipn_all2 by (fold len; nia). apply firstn_nil.
Qed.

End Pagination.

Lemma pagination_partition_witness :
  (1 <= length (TradesTable.paged 2 (seq 0 20)) <= 15)%nat.
Proof.
  destruct (pagination_partition (seq 0 20)) as (_ & _ & H & _).
  apply (H 2%nat). vm_compute. split; repeat constructor.
Defined.

Example paged_example :
  TradesTable.totalPages (seq 0 20) = 2%Z
  /\ TradesTable.paged 2 (seq 0 20) = [15; 16; 17; 18; 19]%nat
  /\ TradesTable.paged 3 (seq 0 20) = [].
Proof. repeat split. Qed.


(** * The binary64 model *)

(** ** Floats *)

Lemma f64_pos_nonzero (x : float) :
  PrimFloat.ltb 0%float x = true -> PrimFloat.eqb x 0%float = false.
Proof.
  rewrite ltb_spec, eqb_spec.
  replace (Prim2SF 0%float) with (S754_zero false) by reflexivity.
  destruct (Prim2SF x) as [s|s| |s m e]; cbn; try discriminate; try reflexivity.
  all: destruct s; cbn; try discriminate; try reflexivity.
Qed.

Lemma f64_classes (x : float) :
  (F64.is_finite x = true /\ F64.is_nan x = false /\ F64.is_inf x = false)
  \/ (F64.is_finite x = false /\ F64.is_nan x = true /\ F64.is_inf x = false)
  \/ (F64.is_finite x = false /\ F64.is_nan x = false /\ F64.is_inf x = true).
Proof.
  unfold F64.is_finite, F64.is_nan, F64.is_inf.
  destruct (Prim2SF x); auto.
Qed.

(** [math.floor] succeeds exactly on finite floats, with the floor of the
    exact value. *)
Lemma math_floor_cases (x : float) :
  (F64.is_finite x = true
   /\ F64.math_floor x = Ok (Qfloor (F64.value x))
   /\ inject_Z (Qfloor (F64.value x)) <= F64.value x
   /\ F64.value x < inject_Z (Qfloor (F64.value x)) + 1)
  \/ (F64.is_nan x = true /\ F64.math_floor x = Raise ValueError)
  \/ (F64.is_inf x = true /\ F64.math_floor x = Raise OverflowError).
Proof.
  unfold F64.is_finite, F64.is_nan, F64.is_inf, F64.math_floor, F64.value.
  destruct (Prim2SF x) as [s|s| |s m e] eqn:E.
  - left. split; [reflexivity|]. split; [reflexivity|]. split.
    + apply Qfloor_le.
    + assert (H := Qlt_floor (F64.SF2Q (S754_zero s))).
      rewrite inject_Z_plus in H. exact H.
  - right. right. split; reflexivity.
  - right. left. split; reflexivity.
  - left. split; [reflexivity|]. split; [reflexivity|]. split.
    + apply Qfloor_le.
    + assert (H := Qlt_floor (F64.SF2Q (S754_finite s m e))).
      rewrite inject_Z_plus in H. exact H.
Qed.

(** ** Broker on floats *)

Lemma calculate_quantity64_cases (self : Broker64.t)
    (portfolio_equity weight fill_price current_position_value : float) :
  let target :=
    Broker64.clamped_target portfolio_equity weight current_position_value in
  let moa := min_order_amount64 (Broker64.config self) in
  let r := Broker64.calculate_quantity self portfolio_equity weight fill_price
             current_position_value in
  let quotient := (target / fill_price)%float in
  (PrimFloat.ltb target moa = true /\ r = Ok 0%Z)
  \/ (PrimFloat.ltb target moa = false /\ PrimFloat.eqb fill_price 0 = true
      /\ r = Raise ZeroDivisionError)
  \/ (PrimFloat.ltb target moa = false /\ PrimFloat.eqb fill_price 0 = false
      /\ F64.is_nan quotient = true /\ r = Raise ValueError)
  \/ (PrimFloat.ltb target moa = false /\ PrimFloat.eqb fill_price 0 = false
      /\ F64.is_inf quotient = true /\ r = Raise OverflowError)
  \/ (PrimFloat.ltb target moa = false /\ PrimFloat.eqb fill_price 0 = false
      /\ F64.is_finite quotient = true
      /\ r = Ok (Z.max (Qfloor (F64.value quotient)) 0)).
Proof.
  intros target moa r quotient.
  unfold r, Broker64.calculate_quantity. fold target moa.
  destruct (PrimFloat.ltb target moa) eqn:E1; [left; split; reflexivity|].
  right. unfold F64.py_div.
  destruct (PrimFloat.eqb fill_price 0) eqn:E2; [left; repeat split|].
  right. cbn [bind]. fold quotient.
  destruct (math_floor_cases quotient) as [(Hf & Hfl & _)|[(Hn & Hfl)|(Hi & Hfl)]];
    rewrite Hfl; cbn [bind].
  - right. right. repeat split. exact Hf.
  - left. repeat split. exact Hn.
  - right. left. repeat split. exact Hi.
Qed.

Lemma f64_ltb_irrefl (x : float) : PrimFloat.ltb x x = false.
Proof.
  rewrite ltb_spec. unfold SFltb.
  destruct (Prim2SF x) as [[]|[]| |[] m e]; cbn; try reflexivity;
    rewrite Z.compare_refl, Pos.compare_cont_refl; reflexivity.
Qed.

Lemma py_min64_le_r (a b : float) : PrimFloat.ltb b (F64.py_min a b) = false.
Proof.
  unfold F64.py_min. destruct (PrimFloat.ltb b a) eqn:E; [apply f64_ltb_irrefl|exact E].
Qed.

(** C1, counterexample.  With equity 1000, weight 0.5 and fill price 3.2 the
    code returns 125 shares, whose notional exceeds 40% of equity; at the
    second input even the product and the cap as the interpreter computes
    them compare the wrong way; and with equity 2^1023 and fill price
    2^-1000 the quotient is infinite and [math.floor] raises instead of
    returning an integer. *)
Lemma calculate_quantity_cap_exceeded :
  (Broker64.calculate_quantity (Broker64.mk US64 D1) 1000 0.5 3.2 0 = Ok 125%Z
   /\ (40 # 100) * F64.value 1000 < inject_Z 125 * F64.value 3.2)
  /\ (Broker64.calculate_quantity (Broker64.mk US64 D1)
        80555.23054961531 1.0 1.7619254275943859 0 = Ok 18288%Z
      /\ PrimFloat.ltb (80555.23054961531 * 0.40) (1.7619254275943859 * 18288) = true
      /\ F64.value (80555.23054961531 * 0.40)
         < inject_Z 18288 * F64.value 1.7619254275943859)
  /\ (PrimFloat.leb 0 0x1p1023 = true
      /\ PrimFloat.ltb 0 0x1p-1000 = true
      /\ Broker64.calculate_quantity (Broker64.mk US64 D1) 0x1p1023 0.3 0x1p-1000 0
         = Raise OverflowError).
Proof.
  repeat split; vm_compute; reflexivity.
Qed.

(** C1, as amended.  On binary64 floats and with a positive fill price,
    the clamped target
    min(equity*weight, equity*0.40 - current_position_value) is never above
    equity*0.40 - current_position_value, and [calculate_quantity] returns 0
    whenever it is below [min_order_amount]; otherwise, when the rounded quotient
    target/fill_price is finite, it returns the non-negative integer
    max(floor(quotient), 0), which does not exceed a non-negative quotient
    and is less than 1 below it; when the quotient is NaN or infinite it
    raises ValueError or OverflowError.  It never returns a negative
    quantity. *)
Theorem calculate_quantity_binary64 (self : Broker64.t)
    (portfolio_equity weight fill_price current_position_value : float) :
  PrimFloat.ltb 0 fill_price = true ->
  let target :=
    F64.py_min (portfolio_equity * weight)%float
               (portfolio_equity * 0.40 - current_position_value)%float in
  let moa := min_order_amount64 (Broker64.config self) in
  let r := Broker64.calculate_quantity self portfolio_equity weight fill_price
             current_position_value in
  let quotient := (target / fill_price)%float in
  PrimFloat.ltb (portfolio_equity * 0.40 - current_position_value) target = false
  /\ (PrimFloat.ltb target moa = true -> r = Ok 0%Z)
  /\ (PrimFloat.ltb target moa = false ->
      (F64.is_finite quotient = true ->
         exists quantity : Z,
           r = Ok quantity
           /\ quantity = Z.max (Qfloor (F64.value quotient)) 0
           /\ (0 <= quantity)%Z
           /\ (0 <= F64.value quotient ->
               inject_Z quantity <= F64.value quotient
               /\ F64.value quotient < inject_Z quantity + 1))
      /\ (F64.is_nan quotient = true -> r = Raise ValueError)
      /\ (F64.is_inf quotient = true -> r = Raise OverflowError))
  /\ (forall quantity, r = Ok quantity -> (0 <= quantity)%Z).
Proof.
  intros Hp target moa r quotient.
  split; [apply py_min64_le_r|].
  assert (Hnz := f64_pos_nonzero fill_price Hp).
  assert (Hcl := f64_classes quotient).
  destruct (calculate_quantity64_cases self portfolio_equity weight fill_price
              current_position_value)
    as [(H1 & H)|[(H1 & H2 & H)|[(H1 & H2 & H3 & H)|[(H1 & H2 & H3 & H)|(H1 & H2 & H3 & H)]]]];
    change (Broker64.clamped_target portfolio_equity weight current_position_value)
      with target in *;
    fold moa in H1; fold r in H.
  - split; [intros _; exact H|]. split; [intro; congruence|].
    intros q Hq. rewrite H in Hq. injection Hq as <-. lia.
  - congruence.
  - fold quotient in H3.
    split; [intro; congruence|]. split; [intros _|intros q Hq; congruence].
    split; [|split]; intro Hc.
    + destruct Hcl as [(Cf & Cn & Ci)|[(Cf & Cn & Ci)|(Cf & Cn & Ci)]]; congruence.
    + exact H.
    + destruct Hcl as [(Cf & Cn & Ci)|[(Cf & Cn & Ci)|(Cf & Cn & Ci)]]; congruence.
  - fold quotient in H3.
    split; [intro; congruence|]. split; [intros _|intros q Hq; congruence].
    split; [|split]; intro Hc.
    + destruct Hcl as [(Cf & Cn & Ci)|[(Cf & Cn & Ci)|(Cf & Cn & Ci)]]; congruence.
    + destruct Hcl as [(Cf & Cn & Ci)|[(Cf & Cn & Ci)|(Cf & Cn & Ci)]]; congruence.
    + exact H.
  - fold quotient in H3, H.
    split; [intro; congruence|]. split.
    + intros _. split; [|split]; intro Hc.
      * eexists. split; [exact H|]. split; [reflexivity|]. split; [lia|].
        intro Hnn.
        destruct (math_floor_cases quotient) as [(_ & _ & Hle & Hlt)|[(Hn & _)|(Hi & _)]].
        -- assert (Hz : (Qfloor 0 <= Qfloor (F64.value quotient))%Z)
             by (apply Qfloor_resp_le; exact Hnn).
           change (Qfloor 0) with 0%Z in Hz.
           rewrite Z.max_l by lia. split; assumption.
        -- destruct Hcl as [(Cf & Cn & Ci)|[(Cf & Cn & Ci)|(Cf & Cn & Ci)]]; congruence.
        -- destruct Hcl as [(Cf & Cn & Ci)|[(Cf & Cn & Ci)|(Cf & Cn & Ci)]]; congruence.
      * destruct Hcl as [(Cf & Cn & Ci)|[(Cf & Cn & Ci)|(Cf & Cn & Ci)]]; congruence.
      * destruct Hcl as [(Cf & Cn & Ci)|[(Cf & Cn & Ci)|(Cf & Cn & Ci)]]; congruence.
    + intros q Hq. rewrite H in Hq. injection Hq as <-. lia.
Qed.

Lemma calculate_quantity_binary64_witness :
  exists quantity : Z,
    Broker64.calculate_quantity (Broker64.mk US64 D1) 10000 0.3 7 0 = Ok quantity
    /\ (0 <= quantity)%Z
    /\ inject_Z quantity
       <= F64.value (F64.py_min (10000 * 0.3) (10000 * 0.40 - 0) / 7).
Proof.
  destruct (calculate_quantity_binary64 (Broker64.mk US64 D1) 10000 0.3 7 0)
    as (_ & _ & H & _).
  - reflexivity.
  - destruct H as (H & _ & _); [reflexivity|].
    destruct H as (q & Hq & _ & Hnn & Hb); [reflexivity|].
    exists q. split; [exact Hq|]. split; [exact Hnn|].
    apply Hb. vm_compute. discriminate.
Defined.

(** X6. On binary64 floats [calculate_quantity] raises in exactly three
    situations, all of them after the minimum-order test has let the target
    through: ZeroDivisionError when the fill price is zero, ValueError when
    the rounded quotient target/fill_price is NaN, OverflowError when it is
    infinite.  A target below [min_order_amount] returns 0 before the
    division is attempted, also for a zero fill price. *)
Theorem calculate_quantity_raises64 (self : Broker64.t)
    (portfolio_equity weight fill_price current_position_value : float) :
  let target :=
    Broker64.clamped_target portfolio_equity weight current_position_value in
  let moa := min_order_amount64 (Broker64.config self) in
  let r := Broker64.calculate_quantity self portfolio_equity weight fill_price
             current_position_value in
  let quotient := (target / fill_price)%float in
  (r = Raise ZeroDivisionError <->
     PrimFloat.ltb target moa = false /\ PrimFloat.eqb fill_price 0 = true)
  /\ (r = Raise ValueError <->
     PrimFloat.ltb target moa = false /\ PrimFloat.eqb fill_price 0 = false
     /\ F64.is_nan quotient = true)
  /\ (r = Raise OverflowError <->
     PrimFloat.ltb target moa = false /\ PrimFloat.eqb fill_price 0 = false
     /\ F64.is_inf quotient = true)
  /\ r <> Raise IndexError
  /\ (PrimFloat.ltb target moa = true -> r = Ok 0%Z).
Proof.
  intros target moa r quotient.
  assert (Hcl := f64_classes quotient).
  destruct (calculate_quantity64_cases self portfolio_equity weight fill_price
              current_position_value)
    as [(H1 & H)|[(H1 & H2 & H)|[(H1 & H2 & H3 & H)|[(H1 & H2 & H3 & H)|(H1 & H2 & H3 & H)]]]];
    fold target moa in H1; fold r in H; try fold target quotient in H3;
    clearbody r quotient; subst r;
    destruct Hcl as [(Cf & Cn & Ci)|[(Cf & Cn & Ci)|(Cf & Cn & Ci)]];
    try congruence;
    repeat split; intros; try discriminate; try reflexivity; try assumption;
    intuition congruence.
Qed.

Lemma calculate_quantity_raises64_witness :
  Broker64.calculate_quantity (Broker64.mk US64 D1) 1000 0.5 0 0
  = Raise ZeroDivisionError
  /\ Broker64.calculate_quantity (Broker64.mk US64 D1) 1000 nan 3.2 0
     = Raise ValueError
  /\ Broker64.calculate_quantity (Broker64.mk US64 D1) 0x1p1023 0.3 0x1p-1000 0
     = Raise OverflowError
  /\ Broker64.calculate_quantity (Broker64.mk US64 D1) 100 0.5 0 0 = Ok 0%Z.
Proof.
  split; [|split; [|split]].
  - apply (proj1 (calculate_quantity_raises64 (Broker64.mk US64 D1) 1000 0.5 0 0)).
    split; reflexivity.
  - apply (proj1 (proj2 (calculate_quantity_raises64 (Broker64.mk US64 D1) 1000 nan 3.2 0))).
    repeat split; reflexivity.
  - apply (proj1 (proj2 (proj2 (calculate_quantity_raises64 (Broker64.mk US64 D1)
                                   0x1p1023 0.3 0x1p-1000 0)))).
    repeat split; reflexivity.
  - apply (proj2 (proj2 (proj2 (proj2 (calculate_quantity_raises64 (Broker64.mk US64 D1)
                                          100 0.5 0 0))))).
    reflexivity.
Defined.



Example validate_order_overflow :
  Broker64.validate_order (Broker64.mk US64 D1) 1 1 1 (2 ^ 1024) = Raise OverflowError.
Proof. vm_compute. reflexivity. Qed.

(** ** Mean reversion on floats *)


Section MeanReversion64.

Variable np_mean np_std : list float -> float.
Variable params : Strategy64.Parameters.
Variable portfolio : Portfolio.

Local Abbreviation step64 := (Strategy64.on_bar_symbol np_mean np_std params portfolio).

Lemma get_state64_lookup (st1 st2 : gmap string Strategy64.SymbolState) (s : string) :
  st1 !! s = st2 !! s ->
  fst (Strategy64._get_state st1 s) = fst (Strategy64._get_state st2 s).
Proof.
  intro H. unfold Strategy64._get_state. rewrite H.
  destruct (st2 !! s); reflexivity.
Qed.

Lemma history_with64_lookup (st1 st2 : gmap string Strategy64.SymbolState)
    (s : string) (close : float) :
  st1 !! s = st2 !! s ->
  Strategy64.history_with st1 s close = Strategy64.history_with st2 s close.
Proof.
  intro H. unfold Strategy64.history_with. rewrite (get_state64_lookup _ _ _ H).
  reflexivity.
Qed.

Lemma get_state64_other (st : gmap string Strategy64.SymbolState) (sym s : string) :
  sym <> s -> snd (Strategy64._get_state st sym) !! s = st !! s.
Proof.
  intro H. unfold Strategy64._get_state.
  destruct (st !! sym); cbn [snd]; [reflexivity|].
  apply lookup_insert_ne. exact H.
Qed.

Lemma on_bar_symbol64_emitted (orders : list Strategy64.PendingOrder)
    (st : gmap string Strategy64.SymbolState) (sym : string) (bar : Strategy64.Bar) :
  fst (step64 (orders, st) (sym, bar))
  = orders ++ emitted64 np_mean np_std params portfolio
                (Strategy64.history_with st sym (Strategy64.bar_close bar))
                sym (Strategy64.bar_close bar)
  /\ forall s, sym <> s -> snd (step64 (orders, st) (sym, bar)) !! s = st !! s.
Proof.
  unfold Strategy64.on_bar_symbol, emitted64, Strategy64.history_with.
  destruct (Strategy64._get_state st sym) as [state st1] eqn:Hgs.
  assert (Hother : forall s, sym <> s -> st1 !! s = st !! s).
  { intros s Hs. rewrite <- (get_state64_other st sym s Hs), Hgs. reflexivity. }
  cbn [fst snd Strategy64.price_history].
  set (hist := Strategy64.price_history state ++ [Strategy64.bar_close bar]).
  assert (Hst : forall (o : list Strategy64.PendingOrder) s, sym <> s ->
            snd (o, <[sym := {| Strategy64.price_history := hist;
                                Strategy64.volume_history :=
                                  Strategy64.volume_history state |}]> st1) !! s
            = st !! s).
  { intros o s Hs. cbn [snd]. rewrite lookup_insert_ne by exact Hs. apply Hother, Hs. }
  destruct (Z.of_nat (length hist) <? Strategy64.lookback_period params)%Z.
  { split; [cbn; rewrite app_nil_r; reflexivity | apply Hst]. }
  destruct (PrimFloat.eqb _ _).
  { split; [cbn; rewrite app_nil_r; reflexivity | apply Hst]. }
  destruct (_ && _).
  { split; [reflexivity | apply Hst]. }
  destruct (_ && _).
  { split; [reflexivity | apply Hst]. }
  split; [cbn; rewrite app_nil_r; reflexivity | apply Hst].
Qed.

Lemma emitted64_symbol (history : list float) (sym : string) (close : float) :
  forall o, In o (emitted64 np_mean np_std params portfolio history sym close) ->
            Strategy64.symbol o = sym.
Proof.
  intros o. unfold emitted64.
  repeat match goal with
         | |- context [if ?c then _ else _] => destruct c
         end;
    cbn; intros [<-|[]] || intros []; reflexivity.
Qed.

Lemma fold_other64 (bars : list (string * Strategy64.Bar)) (s : string) :
  ~ In s (map fst bars) ->
  forall acc,
    snd (fold_left step64 bars acc) !! s = snd acc !! s
    /\ exists new,
         fst (fold_left step64 bars acc) = fst acc ++ new
         /\ forall o, In o new -> Strategy64.symbol o <> s.
Proof.
  induction bars as [|[sym bar] bars IH]; intros Hnot acc; cbn [fold_left].
  - split; [reflexivity|]. exists []. split; [rewrite app_nil_r; reflexivity|].
    intros o [].
  - cbn [map fst] in Hnot.
    assert (Hs : sym <> s) by (intro; apply Hnot; left; assumption).
    assert (Hrest : ~ In s (map fst bars)) by (intro; apply Hnot; right; assumption).
    destruct acc as [orders st].
    destruct (on_bar_symbol64_emitted orders st sym bar) as [Ho Hst].
    destruct (IH Hrest (step64 (orders, st) (sym, bar))) as [IH1 (new & IH2 & IH3)].
    split.
    + rewrite IH1. apply Hst, Hs.
    + eexists. split.
      * rewrite IH2, Ho, <- app_assoc. reflexivity.
      * intros o Ho'. apply in_app_or in Ho'. destruct Ho' as [Ho'|Ho'].
        -- apply emitted64_symbol in Ho'. congruence.
        -- apply IH3, Ho'.
Qed.

Lemma orders_for64_none (s : string) (l : list Strategy64.PendingOrder) :
  (forall o, In o l -> Strategy64.symbol o <> s) -> orders_for64 s l = [].
Proof.
  induction l as [|o l IH]; intro H; [reflexivity|].
  unfold orders_for64. cbn [List.filter].
  rewrite bool_decide_eq_false_2 by (apply H; left; reflexivity).
  apply IH. intros o' Ho'. apply H. right. exact Ho'.
Qed.

Lemma orders_for64_all (s : string) (l : list Strategy64.PendingOrder) :
  (forall o, In o l -> Strategy64.symbol o = s) -> orders_for64 s l = l.
Proof.
  induction l as [|o l IH]; intro H; [reflexivity|].
  unfold orders_for64. cbn [List.filter].
  rewrite bool_decide_eq_true_2 by (apply H; left; reflexivity).
  f_equal. apply IH. intros o' Ho'. apply H. right. exact Ho'.
Qed.

(** The orders [on_bar] returns for a symbol are those its own iteration
    emits, computed from the history the call started with. *)
Lemma on_bar64_orders_for (st : gmap string Strategy64.SymbolState)
    (bars : list (string * Strategy64.Bar)) (s : string) (bar : Strategy64.Bar) :
  List.NoDup (map fst bars) ->
  In (s, bar) bars ->
  orders_for64 s (fst (Strategy64.on_bar np_mean np_std params st bars portfolio))
  = emitted64 np_mean np_std params portfolio
      (Strategy64.history_with st s (Strategy64.bar_close bar))
      s (Strategy64.bar_close bar).
Proof.
  intros Hnd Hin.
  apply in_split in Hin. destruct Hin as (pre & post & ->).
  rewrite map_app in Hnd. cbn [map fst] in Hnd.
  assert (Hnot := NoDup_remove_2 _ _ _ Hnd).
  assert (Hpre : ~ In s (map fst pre)) by (intro; apply Hnot, in_or_app; left; assumption).
  assert (Hpost : ~ In s (map fst post)) by (intro; apply Hnot, in_or_app; right; assumption).
  unfold Strategy64.on_bar. rewrite fold_left_app. cbn [fold_left].
  assert (Hfo := fold_other64). assert (Hem := on_bar_symbol64_emitted).
  destruct (Hfo pre s Hpre ([], st)) as [Hst (new1 & Ho1 & Hn1)].
  destruct (fold_left _ pre ([], st)) as [orders1 st1].
  cbn [fst snd] in Hst, Ho1. cbn [app] in Ho1. subst orders1.
  destruct (Hem new1 st1 s bar) as [Ho2 _].
  destruct (Hfo post s Hpost
              (Strategy64.on_bar_symbol np_mean np_std params portfolio
                 (new1, st1) (s, bar)))
    as [_ (new3 & Ho3 & Hn3)].
  rewrite Ho3, Ho2, (history_with64_lookup st1 st s _ Hst).
  unfold orders_for64. rewrite !List.filter_app. fold (orders_for64 s new1).
  fold (orders_for64 s new3).
  rewrite (orders_for64_none s new1 Hn1), (orders_for64_none s new3 Hn3).
  rewrite app_nil_r. cbn [app].
  apply orders_for64_all. apply emitted64_symbol.
Qed.

End MeanReversion64.



(** C4.  A window of three equal closes 12.34 has zero variance, yet
    [np.mean] returns 12.339999999999998 and [np.std] 1.78e-15, the guard
    [std == 0] does not fire, the z-score is 1.0 and, the symbol being held,
    [on_bar] returns a SELL of the whole position. *)
Theorem on_bar_constant_window_sells :
  np_mean_seq [12.34; 12.34; 12.34]%float = 12.339999999999998%float
  /\ PrimFloat.eqb (np_std_seq [12.34; 12.34; 12.34]%float) 0 = false
  /\ fst (Strategy64.on_bar np_mean_seq np_std_seq params64 (state64 12.34)
            [("AAA"%string, bar64 12.34)] holding_portfolio)
     = [Strategy64.sell_order params64 "AAA"%string 1.0].
Proof.
  repeat split; vm_compute; reflexivity.
Qed.

(** On a constant window of 250.55 the z-score is -1.0 and a flat symbol is
    bought as soon as the entry threshold is below 1. *)
Example on_bar_constant_window_buys :
  fst (Strategy64.on_bar np_mean_seq np_std_seq
         {| Strategy64.lookback_period := 3;
            Strategy64.entry_threshold := 0.5;
            Strategy64.exit_threshold := 0.5;
            Strategy64.position_weight := 0.3 |}
         (state64 250.55) [("AAA"%string, bar64 250.55)] flat_portfolio)
  = [Strategy64.buy_order
       {| Strategy64.lookback_period := 3;
          Strategy64.entry_threshold := 0.5;
          Strategy64.exit_threshold := 0.5;
          Strategy64.position_weight := 0.3 |} "AAA"%string (-1.0)].
Proof. vm_compute. reflexivity. Qed.

(** X27.  [on_bar] returns no order for a symbol whose history, current
    close included, is shorter than [lookback_period], nor for one whose
    window has an [np.std] that compares equal to zero. *)
Theorem on_bar_no_order64 (np_mean np_std : list float -> float)
    (params : Strategy64.Parameters)
    (_state : gmap string Strategy64.SymbolState)
    (bars : list (string * Strategy64.Bar)) (portfolio : Portfolio)
    (s : string) (bar : Strategy64.Bar) :
  List.NoDup (map fst bars) ->
  In (s, bar) bars ->
  let lookback := Strategy64.lookback_period params in
  let history :=
    Strategy64.price_history (fst (Strategy64._get_state _state s))
    ++ [Strategy64.bar_close bar] in
  ((Z.of_nat (length history) < lookback)%Z
   \/ PrimFloat.eqb (np_std (Strategy64.window lookback history)) 0 = true) ->
  forall o,
    In o (fst (Strategy64.on_bar np_mean np_std params _state bars portfolio)) ->
    Strategy64.symbol o <> s.
Proof.
  intros Hnd Hin lookback history Hdeg o Ho Hs.
  assert (Hfor := on_bar64_orders_for np_mean np_std params portfolio _state bars s bar
                    Hnd Hin).
  assert (Hnil : emitted64 np_mean np_std params portfolio history s
                   (Strategy64.bar_close bar) = []).
  { unfold emitted64. fold lookback.
    destruct (Z.of_nat (length history) <? lookback)%Z eqn:Elen; [reflexivity|].
    apply Z.ltb_ge in Elen.
    destruct Hdeg as [Hshort|Hzero]; [lia|].
    rewrite Hzero. reflexivity. }
  unfold Strategy64.history_with in Hfor. fold history in Hfor. rewrite Hnil in Hfor.
  assert (Hino : In o (orders_for64 s
                         (fst (Strategy64.on_bar np_mean np_std params _state bars
                                 portfolio)))).
  { unfold orders_for64. apply List.filter_In. split; [exact Ho|].
    apply bool_decide_eq_true_2. exact Hs. }
  rewrite Hfor in Hino. destruct Hino.
Qed.

Lemma on_bar_no_order64_witness :
  fst (Strategy64.on_bar np_mean_seq np_std_seq params64 (state64 8)
         [("AAA"%string, bar64 8)] holding_portfolio) = [].
Proof.
  destruct (fst (Strategy64.on_bar np_mean_seq np_std_seq params64 (state64 8)
                   [("AAA"%string, bar64 8)] holding_portfolio)) as [|o os] eqn:E;
    [reflexivity|].
  exfalso.
  assert (Ho : Strategy64.symbol o = "AAA"%string).
  { vm_compute in E. discriminate E. }
  revert Ho.
  apply (on_bar_no_order64 np_mean_seq np_std_seq params64 (state64 8)
           [("AAA"%string, bar64 8)] holding_portfolio "AAA"%string (bar64 8)).
  - repeat constructor. intros [].
  - left. reflexivity.
  - right. vm_compute. reflexivity.
  - rewrite E. left. reflexivity.
Defined.
